(** * BioContainers mulled-v2 image names: a model of [src/mulled.py]

    The development follows the service class [MulledImageNameGenerator]:
    [parse_targets], [generate_image_name] and [image_exists].  The class
    delegates to three imported libraries, which are modelled in modules of
    their own so that the class methods read like the Python text:

    - [Sha1]    : [hashlib.sha1(...).hexdigest()] (FIPS 180-4);
    - [Pep440]  : [packaging.version.Version], i.e. the anchored, case
                  insensitive [VERSION_PATTERN];
    - [Galaxy]  : [build_target] and [v2_image_name] of
                  [galaxy.tool_util.deps.mulled.util].

    The library models are run on the libraries' own examples (the SHA-1
    test vectors, the doctests of [v2_image_name], versions accepted and
    refused by [packaging]) before anything is proved with them.

    Python strings are modelled as [string]; the model covers ASCII text,
    where [str.encode()] is the identity on code points and the order of
    [str] is the order of the character codes.  [int(...)] and [str(...)]
    are taken where they convert: below the interpreter's limit on the
    digits of a converted integer (4300 digits by default, and never set
    under 640). *)

From Stdlib Require Import ZArith NArith List String Ascii Bool Lia.
From Stdlib Require Import Permutation Sorted.
From Stdlib Require Import DecimalString DecimalFacts DecimalPos DecimalN DecimalZ.
Import ListNotations.

Local Open Scope list_scope.
Local Open Scope string_scope.

(* ------------------------------------------------------------------ *)
(** ** Exceptions and results *)

(** The exceptions the modelled code can raise.  [ValueError] carries its
    message; the others stand for the library exception classes. *)
Inductive exn : Type :=
| ValueError (msg : string)
| InvalidVersion (msg : string)
| RequestException (msg : string).

(** The outcome of a Python call: a returned value or a raised exception. *)
Inductive result (A : Type) : Type :=
| Ok (a : A)
| Raise (e : exn).

Arguments Ok {A} a.
Arguments Raise {A} e.

Definition bind {A B : Type} (r : result A) (k : A -> result B) : result B :=
  match r with
  | Ok a => k a
  | Raise e => Raise e
  end.

Notation "x <- c ;; k" := (bind c (fun x => k))
  (at level 61, c at next level, right associativity).

(* ------------------------------------------------------------------ *)
(** ** Python [str] built-ins *)

Module PyStr.

(** [str.isspace] on one ASCII character: TAB..CR, FS..US and SPACE. *)
Definition is_space (c : ascii) : bool :=
  let n := nat_of_ascii c in
  ((9 <=? n)%nat && (n <=? 13)%nat) || ((28 <=? n)%nat && (n <=? 32)%nat).

Fixpoint lstrip (s : string) : string :=
  match s with
  | "" => ""
  | String c s' => if is_space c then lstrip s' else s
  end.

(** [rstrip] keeps a character when it is not a space or when something
    remains to its right after stripping. *)
Fixpoint rstrip (s : string) : string :=
  match s with
  | "" => ""
  | String c s' =>
      match rstrip s' with
      | "" => if is_space c then "" else String c ""
      | r => String c r
      end
  end.

(** [s.strip()] *)
Definition strip (s : string) : string := rstrip (lstrip s).

Definition lower_char (c : ascii) : ascii :=
  let n := nat_of_ascii c in
  if ((65 <=? n)%nat && (n <=? 90)%nat) then ascii_of_nat (n + 32) else c.

(** [s.lower()] *)
Fixpoint lower (s : string) : string :=
  match s with
  | "" => ""
  | String c s' => String (lower_char c) (lower s')
  end.

(** [sep.join(l)] *)
Fixpoint join (sep : string) (l : list string) : string :=
  match l with
  | [] => ""
  | [x] => x
  | x :: l' => x ++ sep ++ join sep l'
  end.

(** [str(n)] for an [int]. *)
Definition str_of_int (n : Z) : string :=
  NilZero.string_of_int (Z.to_int n).

(** [bool(s)]: a string is truthy when it is not empty. *)
Definition truthy (s : string) : bool :=
  match s with "" => false | _ => true end.

(** Newline, the separator of the hash buffers. *)
Definition nl : string := String (ascii_of_nat 10) "".

End PyStr.

(* ------------------------------------------------------------------ *)
(** ** SHA-1, as [hashlib.sha1] computes it *)

Module Sha1.
Local Open Scope Z_scope.

Definition wrap (x : Z) : Z := x mod 2 ^ 32.
Definition add32 (x y : Z) : Z := wrap (x + y).
Definition rotl (n x : Z) : Z :=
  Z.lor (wrap (Z.shiftl x n)) (Z.shiftr x (32 - n)).

(** Round function and constant of round [t]. *)
Definition f (t : nat) (b c d : Z) : Z :=
  if (t <? 20)%nat then Z.lor (Z.land b c) (Z.land (wrap (Z.lnot b)) d)
  else if (t <? 40)%nat then Z.lxor (Z.lxor b c) d
  else if (t <? 60)%nat then
    Z.lor (Z.lor (Z.land b c) (Z.land b d)) (Z.land c d)
  else Z.lxor (Z.lxor b c) d.

Definition K (t : nat) : Z :=
  if (t <? 20)%nat then 0x5A827999
  else if (t <? 40)%nat then 0x6ED9EBA1
  else if (t <? 60)%nat then 0x8F1BBCDC
  else 0xCA62C1D6.

Record state : Type := State { h0 : Z; h1 : Z; h2 : Z; h3 : Z; h4 : Z }.

Definition init : state :=
  State 0x67452301 0xEFCDAB89 0x98BADCFE 0x10325476 0xC3D2E1F0.

(** Big-endian words of a block. *)
Fixpoint words (bs : list Z) : list Z :=
  match bs with
  | a :: b :: c :: d :: bs' =>
      (Z.shiftl a 24 + Z.shiftl b 16 + Z.shiftl c 8 + d) :: words bs'
  | _ => []
  end.

(** The message schedule, newest word first: [n] more words are added to
    the reversed list [r]. *)
Fixpoint extend (n : nat) (r : list Z) : list Z :=
  match n with
  | O => r
  | S n' =>
      let x := Z.lxor (Z.lxor (Z.lxor (nth 2 r 0) (nth 7 r 0)) (nth 13 r 0))
                      (nth 15 r 0) in
      extend n' (rotl 1 x :: r)
  end.

Definition schedule (block : list Z) : list Z :=
  rev (extend 64 (rev (words block))).

Definition round (st : state) (tw : nat * Z) : state :=
  let '(t, w) := tw in
  let '(State a b c d e) := st in
  let temp := add32 (add32 (add32 (add32 (rotl 5 a) (f t b c d)) e) (K t)) w in
  State temp a (rotl 30 b) c d.

Definition compress (st : state) (block : list Z) : state :=
  let ws := schedule block in
  let r := fold_left round (combine (seq 0 80) ws) st in
  State (add32 (h0 st) (h0 r)) (add32 (h1 st) (h1 r)) (add32 (h2 st) (h2 r))
        (add32 (h3 st) (h3 r)) (add32 (h4 st) (h4 r)).

(** Big-endian bytes of [x], [n] of them. *)
Fixpoint be_bytes (n : nat) (x : Z) : list Z :=
  match n with
  | O => []
  | S n' => (be_bytes n' (Z.shiftr x 8) ++ [x mod 256])%list
  end.

Definition pad (msg : list Z) : list Z :=
  let len := Z.of_nat (List.length msg) in
  let k := Z.to_nat ((55 - len) mod 64) in
  (msg ++ [0x80] ++ repeat 0 k ++ be_bytes 8 (8 * len))%list.

(** The blocks of 64 bytes of a padded message; [fuel] bounds their
    number. *)
Fixpoint blocks (fuel : nat) (bs : list Z) : list (list Z) :=
  match fuel, bs with
  | _, [] => []
  | O, _ => []
  | S fuel', _ => firstn 64 bs :: blocks fuel' (skipn 64 bs)
  end.

Definition digest (msg : list Z) : state :=
  let p := pad msg in
  fold_left compress (blocks (List.length p) p) init.

Definition hex_digit (x : Z) : ascii :=
  match x mod 16 with
  | 0 => "0" | 1 => "1" | 2 => "2" | 3 => "3" | 4 => "4" | 5 => "5"
  | 6 => "6" | 7 => "7" | 8 => "8" | 9 => "9" | 10 => "a" | 11 => "b"
  | 12 => "c" | 13 => "d" | 14 => "e" | _ => "f"
  end%char.

Definition hex8 (x : Z) (k : string) : string :=
  String (hex_digit (Z.shiftr x 28)) (String (hex_digit (Z.shiftr x 24))
 (String (hex_digit (Z.shiftr x 20)) (String (hex_digit (Z.shiftr x 16))
 (String (hex_digit (Z.shiftr x 12)) (String (hex_digit (Z.shiftr x 8))
 (String (hex_digit (Z.shiftr x 4)) (String (hex_digit x) k))))))).

Definition hex_of_state (st : state) : string :=
  hex8 (h0 st) (hex8 (h1 st) (hex8 (h2 st) (hex8 (h3 st) (hex8 (h4 st) "")))).

(** [s.encode()] on ASCII text. *)
Definition encode (s : string) : list Z :=
  map (fun c => Z.of_nat (nat_of_ascii c)) (list_ascii_of_string s).

(** [hashlib.sha1(s.encode()).hexdigest()] *)
Definition hexdigest (s : string) : string := hex_of_state (digest (encode s)).

End Sha1.

(* ------------------------------------------------------------------ *)
(** ** [packaging.version.Version]: the PEP 440 grammar

    [Version(version)] searches the string with
    [re.compile(r"^\s*" + VERSION_PATTERN + r"\s*$", re.VERBOSE | re.IGNORECASE)]
    and raises [InvalidVersion] when there is no match.  The pattern is
    anchored at both ends, so the search succeeds exactly when the whole
    string belongs to the language of the expression; membership is decided
    with derivatives. *)

Module Pep440.

Inductive re : Type :=
| Void
| Eps
| Cls (p : ascii -> bool)
| Cat (r1 r2 : re)
| Alt (r1 r2 : re)
| Star (r : re).

Definition Opt (r : re) : re := Alt r Eps.
Definition Plus (r : re) : re := Cat r (Star r).

(** The strings an expression matches in full. *)
Inductive lang : re -> string -> Prop :=
| lang_eps : lang Eps ""
| lang_cls p c : p c = true -> lang (Cls p) (String c "")
| lang_cat r1 r2 s1 s2 : lang r1 s1 -> lang r2 s2 -> lang (Cat r1 r2) (s1 ++ s2)
| lang_alt_l r1 r2 s : lang r1 s -> lang (Alt r1 r2) s
| lang_alt_r r1 r2 s : lang r2 s -> lang (Alt r1 r2) s
| lang_star_nil r : lang (Star r) ""
| lang_star_cons r s1 s2 :
    lang r s1 -> lang (Star r) s2 -> lang (Star r) (s1 ++ s2).

Fixpoint nullable (r : re) : bool :=
  match r with
  | Void => false
  | Eps => true
  | Cls _ => false
  | Cat r1 r2 => nullable r1 && nullable r2
  | Alt r1 r2 => nullable r1 || nullable r2
  | Star _ => true
  end.

Definition cat (r1 r2 : re) : re :=
  match r1, r2 with
  | Void, _ => Void
  | _, Void => Void
  | Eps, _ => r2
  | _, _ => Cat r1 r2
  end.

Definition alt (r1 r2 : re) : re :=
  match r1, r2 with
  | Void, _ => r2
  | _, Void => r1
  | _, _ => Alt r1 r2
  end.

Fixpoint deriv (c : ascii) (r : re) : re :=
  match r with
  | Void => Void
  | Eps => Void
  | Cls p => if p c then Eps else Void
  | Cat r1 r2 =>
      alt (cat (deriv c r1) r2) (if nullable r1 then deriv c r2 else Void)
  | Alt r1 r2 => alt (deriv c r1) (deriv c r2)
  | Star r1 => cat (deriv c r1) (Star r1)
  end.

Fixpoint matches (r : re) (s : string) : bool :=
  match s with
  | "" => nullable r
  | String c s' => matches (deriv c r) s'
  end.

(** Character classes.  With [re.IGNORECASE] a letter of the pattern
    matches both of its cases. *)
Definition chr (x : ascii) : re := Cls (Ascii.eqb x).
Definition chr_i (x : ascii) : re :=
  Cls (fun c => Ascii.eqb (PyStr.lower_char c) x).
Definition digit : re :=
  Cls (fun c => let n := nat_of_ascii c in (48 <=? n)%nat && (n <=? 57)%nat).
Definition alnum : re :=
  Cls (fun c => let n := nat_of_ascii (PyStr.lower_char c) in
                ((48 <=? n)%nat && (n <=? 57)%nat)
                || ((97 <=? n)%nat && (n <=? 122)%nat)).
Definition sep : re :=
  Cls (fun c => Ascii.eqb c "-" || Ascii.eqb c "_" || Ascii.eqb c ".")%char.
Definition space : re := Cls PyStr.is_space.

(** A word of the pattern, letters in lower case. *)
Fixpoint word (s : string) : re :=
  match s with
  | "" => Eps
  | String c s' => Cat (chr_i c) (word s')
  end.

Fixpoint any_of (l : list re) : re :=
  match l with
  | [] => Void
  | [r] => r
  | r :: l' => Alt r (any_of l')
  end.

Fixpoint seq_of (l : list re) : re :=
  match l with
  | [] => Eps
  | [r] => r
  | r :: l' => Cat r (seq_of l')
  end.

Definition epoch : re := Opt (Cat (Plus digit) (chr "!")).
Definition release : re :=
  Cat (Plus digit) (Star (Cat (chr ".") (Plus digit))).
Definition pre : re :=
  Opt (seq_of [Opt sep;
               any_of (map word ["alpha"; "a"; "beta"; "b"; "preview";
                                 "pre"; "c"; "rc"]);
               Opt sep; Opt (Plus digit)]).
Definition post : re :=
  Opt (Alt (Cat (chr "-") (Plus digit))
           (seq_of [Opt sep; any_of (map word ["post"; "rev"; "r"]);
                    Opt sep; Opt (Plus digit)])).
Definition dev : re :=
  Opt (seq_of [Opt sep; word "dev"; Opt sep; Opt (Plus digit)]).
Definition local : re :=
  Opt (seq_of [chr "+"; Plus alnum; Star (Cat sep (Plus alnum))]).

Definition VERSION_PATTERN : re :=
  seq_of [Opt (chr_i "v"); epoch; release; pre; post; dev; local].

Definition _regex : re := seq_of [Star space; VERSION_PATTERN; Star space].

(** [Version(version)], kept to what the caller observes: whether the
    constructor returns or raises.  After the match the constructor
    converts the numerals with [int]; they are taken short enough for
    that (see the head of the file), so a matched string is accepted. *)
Definition Version (version : string) : result unit :=
  if matches _regex version then Ok tt
  else Raise (InvalidVersion ("Invalid version: '" ++ version ++ "'")).

End Pep440.

(* ------------------------------------------------------------------ *)
(** ** [galaxy.tool_util.deps.mulled.util]

    The two functions [mulled.py] imports.  [Target] is the library's named
    tuple; [build_target] is taken at [tag=None], the only way the class
    calls it. *)

Module Galaxy.
Import PyStr.

Record Target : Type := mkTarget {
  package_name : string;
  version : option string;
  build : option string;
  package : string
}.

(** [build_target(package_name, version, build)]: conda package and quay
    image names are lower case. *)
Definition build_target (name : string) (version build : option string)
  : Target :=
  mkTarget (lower name) version build name.

(** [sorted(targets, key=lambda t: t.package_name)].  Python's sort is
    stable: an element goes in front of the first one whose key is not
    smaller, hence in front of the later elements with its own key. *)
Fixpoint insert (t : Target) (l : list Target) : list Target :=
  match l with
  | [] => [t]
  | u :: l' =>
      if String.leb (package_name t) (package_name u) then t :: l
      else u :: insert t l'
  end.

Definition sorted (targets : list Target) : list Target :=
  fold_right insert [] targets.

(** Truth value of an optional string: [None] and [""] are falsy. *)
Definition truthy_opt (o : option string) : bool :=
  match o with
  | Some s => truthy s
  | None => false
  end.

(** [x or default] for an optional string [x]. *)
Definition or_else (x : option string) (default : string) : string :=
  match x with
  | Some v => if truthy v then v else default
  | None => default
  end.

(** [_simple_image_name(targets, image_build)], applied to [targets[0]]. *)
Definition _simple_image_name (target : Target) (image_build : option string)
  : string :=
  match version target with
  | Some v =>
      let build :=
        match build target, image_build with
        | None, Some b => if String.eqb b "0" then None else Some b
        | bd, _ => bd
        end in
      package_name target ++ ":" ++ v ++
        match build with
        | Some b => "--" ++ b
        | None => ""
        end
  | None => package_name target
  end.

Definition v2_image_name (targets : list Target)
           (image_build name_override : option string) : string :=
  match name_override with
  | Some name => name
  | None =>
      match targets with
      | [target] => _simple_image_name target image_build
      | _ =>
          let targets_order := sorted targets in
          let package_name_buffer := join nl (map package_name targets_order) in
          let package_hash := Sha1.hexdigest package_name_buffer in
          let version_hash_str :=
            if existsb (fun t => truthy_opt (version t)) targets_order then
              Sha1.hexdigest
                (join nl (map (fun t => or_else (version t) "null")
                              targets_order))
            else "" in
          let build_suffix :=
            match image_build with
            | Some b =>
                if negb (truthy b) then ""
                else if truthy version_hash_str then "-" ++ b
                else b
            | None => ""
            end in
          let suffix :=
            if truthy version_hash_str || truthy build_suffix
            then ":" ++ version_hash_str ++ build_suffix
            else "" in
          "mulled-v2-" ++ package_hash ++ suffix
      end
  end.

End Galaxy.

(* ------------------------------------------------------------------ *)
(** ** [class MulledImageNameGenerator] *)

Module MulledImageNameGenerator.
Import PyStr.

(** [_split_pattern.split(spec, maxsplit=1)] for the pattern [==?]: the
    string is cut at its first [=], which takes a second [=] with it when
    one follows; without any [=] the list has the string alone. *)
Fixpoint _split_pattern_split (spec : string) : list string :=
  match spec with
  | "" => [""]
  | String c rest =>
      if Ascii.eqb c "=" then
        match rest with
        | String c' rest' => if Ascii.eqb c' "=" then [""; rest'] else [""; rest]
        | "" => [""; ""]
        end
      else
        match _split_pattern_split rest with
        | x :: l => String c x :: l
        | [] => []
        end
  end.

Definition format_error (spec : string) : exn :=
  ValueError ("The specification '" ++ spec ++
              "' does not have the expected format " ++
              "<tool==version> or <tool=version>.").

Definition version_error (version spec : string) : exn :=
  ValueError ("Not a PEP440 version spec: '" ++ version ++ "' in '" ++
              spec ++ "'").

(** The body of the loop of [parse_targets]: the pair one specification
    adds to [result], or the exception it raises. *)
Definition parse_spec (spec : string) : result (string * string) :=
  match _split_pattern_split spec with
  | [tool; version] =>
      match Pep440.Version version with
      | Ok _ => Ok (strip tool, strip version)
      | Raise (InvalidVersion _) => Raise (version_error version spec)
      | Raise e => Raise e
      end
  | _ => Raise (format_error spec)
  end.

(** The loop, with the list [result] built so far. *)
Fixpoint parse_loop (specifications : list string)
         (acc : list (string * string)) : result (list (string * string)) :=
  match specifications with
  | [] => Ok acc
  | spec :: rest =>
      p <- parse_spec spec ;;
      parse_loop rest (acc ++ [p])%list
  end.

Definition parse_targets (specifications : list string)
  : result (list (string * string)) :=
  parse_loop specifications [].

Definition generate_image_name (targets : list (string * string))
           (base_image : option string) (build_number : Z) : result string :=
  Ok (Galaxy.v2_image_name
        (map (fun '(name, version) =>
                Galaxy.build_target name (Some version) None) targets)
        (Some (str_of_int build_number))
        base_image).

(** *** The registry check *)

Record Response : Type := mkResponse { status_code : Z }.

Inductive level : Type := DEBUG | INFO | ERROR.

Definition quay_url (image_name : string) : string :=
  "https://quay.io/biocontainers/" ++ image_name ++ "/".

Section Registry.
(** [requests.get(url, allow_redirects=True)]: the final response, or
    the exception of a request that could not be completed. *)
Variable requests_get : string -> result Response.

(** The value returned or the exception raised, with the records
    written to the log on the way. *)
Definition image_exists (image_name : string)
  : list (level * string) * result bool :=
  let url := quay_url image_name in
  match requests_get url with
  | Raise e => ([], Raise e)
  | Ok response =>
      let dbg := (DEBUG, "Got response code '" ++
                         str_of_int (status_code response) ++
                         "' for URL " ++ url ++ ".") in
      if Z.eqb (status_code response) 200 then
        ([dbg; (INFO, "Found [link=" ++ url ++
                      "]docker image[/link] on quay.io! :sparkles:")],
         Ok true)
      else
        ([dbg; (ERROR, "Unable to find [link=" ++ url ++
                       "]docker image[/link] on quay.io.")],
         Ok false)
  end.
End Registry.

End MulledImageNameGenerator.

(* ------------------------------------------------------------------ *)
(** ** [class PanelApp]

    The state of the form is the column [_tools_column].  A row made by
    [layout_tool_input] is kept with the current values of its two text
    inputs; the two panes [on_submit] puts in the column are kept with
    their text.  The callbacks receive an event they do not read. *)

Module PanelApp.
Import PyStr.
Import MulledImageNameGenerator.

Inductive item : Type :=
| ToolInput (tool version : string)
| HtmlRow (text : string)
| MarkdownPane (text : string).

(** An exception raised in a callback: the unpacking of a row and the
    service class raise exceptions of the kinds of [exn]. *)
Inductive error : Type :=
| Service (e : exn).

Inductive outcome (A : Type) : Type :=
| Done (a : A)
| Fail (e : error).

Arguments Done {A} a.
Arguments Fail {A} e.

(** A string from its UTF-8 bytes. *)
Definition utf8 (bytes : list nat) : string :=
  string_of_list_ascii (map ascii_of_nat bytes).

Definition dq : string := utf8 [34].
Definition indent : string := "            ".

(** The three literals of [on_submit] that are not ASCII, as the file
    has them. *)
Definition clipboard_sign : string := utf8 [195; 176; 197; 184; 226; 128; 156; 226; 128; 185].
Definition found_sign : string := utf8 [195; 162; 197; 147; 226; 128; 156].
Definition missing_sign : string := utf8 [195; 162; 197; 146].

Definition layout_tool_input : item := ToolInput "" "".

(** [__init__]: an empty column. *)
Definition init : list item := [].

Definition on_add (column : list item) : list item :=
  (column ++ [layout_tool_input])%list.

(** [self._tools_column[:] = self._tools_column[:-1]] *)
Definition on_remove (column : list item) : list item := removelast column.

(** [clear()] and then [append(layout_tool_input())]. *)
Definition on_reset (column : list item) : list item :=
  on_add [].

(** [tool, version = row[:]] and the two stripped values: a row of two
    inputs unpacks; the row of the HTML pane has one object, and the slice
    of a pane is a list of one object too, so both have too few values. *)
Definition unpack_row (row : item) : outcome (string * string) :=
  match row with
  | ToolInput tool version => Done (strip tool, strip version)
  | HtmlRow _ | MarkdownPane _ =>
      Fail (Service (ValueError "not enough values to unpack (expected 2, got 1)"))
  end.

(** The loop of [on_submit], with the list [tools] built so far. *)
Fixpoint collect (column : list item) (tools : list (string * string))
  : outcome (list (string * string)) :=
  match column with
  | [] => Done tools
  | row :: rest =>
      match unpack_row row with
      | Done p => collect rest (tools ++ [p])%list
      | Fail e => Fail e
      end
  end.

Definition html_text (image : string) : string :=
  nl ++ indent ++ "<code>" ++ nl ++ indent ++ image ++ nl ++
  indent ++ "</code>" ++ nl ++
  indent ++ "<button onclick=" ++ dq ++ "navigator.clipboard.writeText('" ++
            image ++ "')" ++ dq ++ ">" ++ nl ++
  indent ++ clipboard_sign ++ nl ++
  indent ++ "</button>" ++ nl ++ indent.

Definition markdown_text (image : string) (found : bool) : string :=
  "[https://quay.io/biocontainers/" ++ image ++
  "](https://quay.io/biocontainers/" ++ image ++ ") " ++
  (if found then found_sign else missing_sign).

Section Callbacks.
Variable requests_get : string -> result Response.

(** The column after the callback, the records logged, and whether the
    callback returned or raised. *)
Definition on_submit (column : list item)
  : list item * list (level * string) * outcome unit :=
  match collect column [] with
  | Fail e => (column, [], Fail e)
  | Done tools =>
      match generate_image_name tools None 0 with
      | Raise e => (column, [], Fail (Service e))
      | Ok image =>
          let text := HtmlRow (html_text image) in
          match image_exists requests_get image with
          | (log, Raise e) => ([text], log, Fail (Service e))
          | (log, Ok found) =>
              ([text; MarkdownPane (markdown_text image found)], log, Done tt)
          end
      end
  end.

(** The buttons of [view], in the order of its row, and the callback
    each one is wired to. *)
Inductive button : Type :=
| SubmitButton
| ResetButton
| AddButton
| RemoveButton.

Definition click (b : button) (column : list item) : list item :=
  match b with
  | SubmitButton => fst (fst (on_submit column))
  | ResetButton => on_reset column
  | AddButton => on_add column
  | RemoveButton => on_remove column
  end.

End Callbacks.

(** [view]: the row of buttons and the column, which gets its first
    row of inputs. *)
Definition view (column : list item) : list button * list item :=
  ([SubmitButton; ResetButton; AddButton; RemoveButton], on_add column).

(** The module-level [app = PanelApp()] followed by [app.view()]. *)
Definition app_column : list item := snd (view init).

End PanelApp.

Import MulledImageNameGenerator.

Import PyStr.

(* ------------------------------------------------------------------ *)
(** ** Vocabulary of the statements *)

(** Character tests and their extension to a whole string. *)
Definition is_digit (c : ascii) : bool :=
  let n := nat_of_ascii c in (48 <=? n)%nat && (n <=? 57)%nat.

Definition is_hex (c : ascii) : bool :=
  let n := nat_of_ascii c in
  ((48 <=? n)%nat && (n <=? 57)%nat) || ((97 <=? n)%nat && (n <=? 102)%nat).

Fixpoint all_chars (p : ascii -> bool) (s : string) : bool :=
  match s with
  | "" => true
  | String c s' => p c && all_chars p s'
  end.

(** The string contains the character [=]. *)
Fixpoint has_separator (s : string) : bool :=
  match s with
  | "" => false
  | String c s' => Ascii.eqb c "=" || has_separator s'
  end.

(** The string contains a comparison character other than [=]: one of
    [<], [>], [!] and [~]. *)
Fixpoint has_operator (s : string) : bool :=
  match s with
  | "" => false
  | String c s' =>
      (Ascii.eqb c "<" || Ascii.eqb c ">" || Ascii.eqb c "!" || Ascii.eqb c "~")
      || has_operator s'
  end.

(** A specification the loop accepts: it splits in two and its second part
    is a version. *)
Definition well_formed (spec : string) : Prop :=
  exists tool version,
    _split_pattern_split spec = [tool; version] /\
    Pep440.Version version = Ok tt.

(** Nothing but white space at neither end. *)
Definition trimmed (s : string) : Prop :=
  (forall c s', s = String c s' -> is_space c = false) /\
  (forall s' c, s = s' ++ String c "" -> is_space c = false).

(** [t] does not come after [u] in the order of the package names. *)
Definition name_le (t u : Galaxy.Target) : Prop :=
  String.leb (Galaxy.package_name t) (Galaxy.package_name u) = true.

(** The targets [generate_image_name] hands to [v2_image_name]. *)
Definition targets_of (targets : list (string * string)) : list Galaxy.Target :=
  map (fun '(name, version) => Galaxy.build_target name (Some version) None)
      targets.

(** The two digests of a name: over the package names, lower case and in
    their order, and over the versions, taken in the order of the names;
    both buffers have one entry per line. *)
Definition package_hash (targets : list (string * string)) : string :=
  Sha1.hexdigest
    (join nl (map Galaxy.package_name (Galaxy.sorted (targets_of targets)))).

Definition version_hash (targets : list (string * string)) : string :=
  Sha1.hexdigest
    (join nl (map (fun t => Galaxy.or_else (Galaxy.version t) "null")
                  (Galaxy.sorted (targets_of targets)))).

(** Forty hexadecimal digits, the length of a SHA-1 digest. *)
Definition hex40 (s : string) : Prop :=
  String.length s = 40 /\ all_chars is_hex s = true.

(** Two registries for [image_exists]: one that cannot be reached, and one
    that holds the image [samtools:1.15] and nothing else. *)
Definition unreachable_registry (url : string) : result Response :=
  Raise (RequestException "ConnectionError").

Definition sample_registry (url : string) : result Response :=
  if String.eqb url "https://quay.io/biocontainers/samtools:1.15/"
  then Ok (mkResponse 200) else Ok (mkResponse 404).

(** [sub] occurs in [s]. *)
Definition contains (sub s : string) : Prop :=
  exists pre post, s = pre ++ sub ++ post.

(** A pair written as a specification, with the separator [sep]. *)
Definition render (sep : string) (p : string * string) : string :=
  fst p ++ sep ++ snd p.

Definition strip_pair (p : string * string) : string * string :=
  (strip (fst p), strip (snd p)).

Definition not_space (c : ascii) : bool := negb (is_space c).
Definition not_separator (c : ascii) : bool := negb (Ascii.eqb c "=").

(** The 256 characters. *)
Definition all_ascii : list ascii := map ascii_of_nat (seq 0 256).

(** Every character class of the expression lies within [Q]. *)
Fixpoint classes_within (Q : ascii -> bool) (r : Pep440.re) : bool :=
  match r with
  | Pep440.Cls p => forallb (fun c => implb (p c) (Q c)) all_ascii
  | Pep440.Cat r1 r2 | Pep440.Alt r1 r2 =>
      classes_within Q r1 && classes_within Q r2
  | Pep440.Star r1 => classes_within Q r1
  | _ => true
  end.

(** The targets agree on what a name is computed from. *)
Definition same_view (t u : Galaxy.Target) : Prop :=
  Galaxy.package_name t = Galaxy.package_name u /\
  Galaxy.version t = Galaxy.version u /\
  Galaxy.build t = Galaxy.build u.

(** Rows of the form, as opposed to the panes of a result. *)
Definition is_input (row : PanelApp.item) : bool :=
  match row with
  | PanelApp.ToolInput _ _ => true
  | _ => false
  end.

(** The values of the rows, stripped, as [on_submit] collects them. *)
Definition tools_of (column : list PanelApp.item) : list (string * string) :=
  flat_map (fun row => match row with
                       | PanelApp.ToolInput tool version =>
                           [(strip tool, strip version)]
                       | _ => []
                       end) column.

(** Successive clicks, each on the column the one before left. *)
Definition clicks (requests_get : string -> result Response)
           (bs : list PanelApp.button) (column : list PanelApp.item)
  : list PanelApp.item :=
  fold_left (fun col b => PanelApp.click requests_get b col) bs column.

(* ------------------------------------------------------------------ *)
(** * Properties *)

(** ** The library models on known values *)

Example sha1_abc : Sha1.hexdigest "abc" = "a9993e364706816aba3e25717850c26c9cd0d89d".
Proof. vm_compute. reflexivity. Qed.

Example sha1_empty : Sha1.hexdigest "" = "da39a3ee5e6b4b0d3255bfef95601890afd80709".
Proof. vm_compute. reflexivity. Qed.

Example sha1_two_blocks :
  Sha1.hexdigest "abcdbcdecdefdefgefghfghighijhijkijkljklmklmnlmnomnopnopq"
  = "84983e441c3bd26ebaae4aa1f95129e5e54670f1".
Proof. vm_compute. reflexivity. Qed.

Example str_of_int_examples :
  PyStr.str_of_int 0 = "0" /\ PyStr.str_of_int 3 = "3" /\
  PyStr.str_of_int 120 = "120" /\ PyStr.str_of_int (-7) = "-7".
Proof. vm_compute. repeat split. Qed.

Example pep440_accepts :
  map (Pep440.matches Pep440._regex)
      ["0.1.2"; "1.1"; "1.15"; "0.16.0.1"; " 1.0 "; "v1!2.0rc1.post2.dev3+ab.1";
       "1.0-1"; "1.0A"; "2023.01"; "1.0.PoSt"]
  = repeat true 10.
Proof. vm_compute. reflexivity. Qed.

Example pep440_rejects :
  map (Pep440.matches Pep440._regex)
      ["0a.1.2"; "1.b1b"; ""; "1."; "a"; "1.0=2"; "=1.0"; "1 .0"; "1.0+"; "1..2"]
  = repeat false 10.
Proof. vm_compute. reflexivity. Qed.

(** The doctests of [v2_image_name] in the library. *)
Example v2_image_name_doctests :
  let samtools := Galaxy.build_target "samtools" (Some "1.3.1") None in
  let samtools_py := Galaxy.build_target "samtools" (Some "1.3.1") (Some "py_1") in
  let bwa := Galaxy.build_target "bwa" (Some "0.7.13") None in
  Galaxy.v2_image_name [samtools] None None = "samtools:1.3.1" /\
  Galaxy.v2_image_name [samtools_py] None None = "samtools:1.3.1--py_1" /\
  Galaxy.v2_image_name [samtools] (Some "0") None = "samtools:1.3.1" /\
  Galaxy.v2_image_name [samtools_py] (Some "0") None = "samtools:1.3.1--py_1" /\
  Galaxy.v2_image_name [samtools; bwa] None None
  = "mulled-v2-fe8faa35dbf6dc65a0f7f5d4ea12e31a79f73e40:4d0535c94ef45be8459f429561f0894c3fe0ebcf" /\
  Galaxy.v2_image_name [samtools; Galaxy.build_target "bwa" None None] None None
  = "mulled-v2-fe8faa35dbf6dc65a0f7f5d4ea12e31a79f73e40:b0c847e4fb89c343b04036e33b2daa19c4152cf5" /\
  Galaxy.v2_image_name [Galaxy.build_target "samtools" None None;
                        Galaxy.build_target "bwa" None None] None None
  = "mulled-v2-fe8faa35dbf6dc65a0f7f5d4ea12e31a79f73e40".
Proof. vm_compute. repeat split. Qed.

Example split_examples :
  map _split_pattern_split ["foo==0.1.2"; "foo=0.1.2"; "foo<0.1.2"; "=1.0";
                            "foo===1"; "foo="; "a>=1=2"; ""]
  = [["foo"; "0.1.2"]; ["foo"; "0.1.2"]; ["foo<0.1.2"]; [""; "1.0"];
     ["foo"; "=1"]; ["foo"; ""]; ["a>"; "1=2"]; [""]].
Proof. vm_compute. reflexivity. Qed.

Example strip_examples :
  PyStr.strip "  a b  " = "a b" /\ PyStr.strip "" = "" /\
  PyStr.strip "   " = "" /\ PyStr.strip "x" = "x".
Proof. vm_compute. repeat split. Qed.

(* ------------------------------------------------------------------ *)
(** ** The matcher decides the language of the pattern *)

Section RegexSemantics.
Import Pep440.

Lemma lang_void s : ~ lang Void s.
Proof. intros H. inversion H. Qed.

Lemma nullable_spec r : nullable r = true <-> lang r "".
Proof.
  split.
  - induction r; simpl; intros H; try discriminate.
    + constructor.
    + apply andb_true_iff in H as [H1 H2].
      change "" with ("" ++ ""). constructor; auto.
    + apply orb_true_iff in H as [H|H]; [apply lang_alt_l|apply lang_alt_r]; auto.
    + constructor.
  - intros H. remember "" as s eqn:E.
    induction H; simpl; try reflexivity; try discriminate.
    + destruct s1; [|discriminate]. simpl in E. subst.
      now rewrite IHlang1, IHlang2.
    + now rewrite IHlang.
    + rewrite IHlang by assumption. apply orb_true_r.
Qed.

Lemma lang_cat_inv r1 r2 s :
  lang (Cat r1 r2) s -> exists s1 s2, s = s1 ++ s2 /\ lang r1 s1 /\ lang r2 s2.
Proof. intros H. inversion H; subst. now exists s1, s2. Qed.

Lemma cat_spec r1 r2 s : lang (cat r1 r2) s <-> lang (Cat r1 r2) s.
Proof.
  assert (V1 : forall r, lang Void s <-> lang (Cat Void r) s).
  { intros r. split; intros H; [now apply lang_void in H|].
    apply lang_cat_inv in H as (? & ? & _ & H & _). now apply lang_void in H. }
  assert (V2 : forall r, lang Void s <-> lang (Cat r Void) s).
  { intros r. split; intros H; [now apply lang_void in H|].
    apply lang_cat_inv in H as (? & ? & _ & _ & H). now apply lang_void in H. }
  assert (E : forall r, lang r s <-> lang (Cat Eps r) s).
  { intros r. split; intros H.
    - change s with ("" ++ s). constructor; [constructor|assumption].
    - apply lang_cat_inv in H as (s1 & s2 & -> & H1 & H2).
      inversion H1; subst. exact H2. }
  destruct r1, r2; simpl; auto; reflexivity.
Qed.

Lemma alt_spec r1 r2 s : lang (alt r1 r2) s <-> lang (Alt r1 r2) s.
Proof.
  assert (V1 : forall r, lang r s <-> lang (Alt Void r) s).
  { intros r. split; intros H; [now apply lang_alt_r|].
    inversion H; subst; [now apply lang_void in H3|assumption]. }
  assert (V2 : forall r, lang r s <-> lang (Alt r Void) s).
  { intros r. split; intros H; [now apply lang_alt_l|].
    inversion H; subst; [assumption|now apply lang_void in H3]. }
  destruct r1, r2; simpl; auto; reflexivity.
Qed.

Lemma lang_star_inv r s :
  lang (Star r) s ->
  forall c s', s = String c s' ->
    exists s1 s2, s' = s1 ++ s2 /\ lang r (String c s1) /\ lang (Star r) s2.
Proof.
  intros H. remember (Star r) as r' eqn:E.
  induction H; try discriminate.
  injection E as ->. intros c s' Hs.
  destruct s1 as [|c1 s1]; simpl in Hs.
  - now apply IHlang2.
  - injection Hs as -> <-. now exists s1, s2.
Qed.

Lemma deriv_spec c r : forall s, lang (deriv c r) s <-> lang r (String c s).
Proof.
  induction r as [| |p|r1 IH1 r2 IH2|r1 IH1 r2 IH2|r IH]; intros s; simpl.
  - split; intros H; inversion H.
  - split; intros H; inversion H.
  - destruct (p c) eqn:Hp; split; intros H.
    + inversion H; subst. now constructor.
    + inversion H; subst. constructor.
    + now apply lang_void in H.
    + inversion H; subst. congruence.
  - rewrite alt_spec. split; intros H.
    + inversion H as [| | |? ? ? H'|? ? ? H'| |]; subst.
      * apply cat_spec, lang_cat_inv in H' as (s1 & s2 & -> & H1 & H2).
        apply IH1 in H1. change (lang (Cat r1 r2) (String c s1 ++ s2)).
        now constructor.
      * destruct (nullable r1) eqn:N; [|now apply lang_void in H'].
        apply IH2 in H'. apply nullable_spec in N.
        change (lang (Cat r1 r2) ("" ++ String c s)). now constructor.
    + apply lang_cat_inv in H as (s1 & s2 & E & H1 & H2).
      destruct s1 as [|c1 s1]; simpl in E.
      * subst s2. apply lang_alt_r.
        apply nullable_spec in H1. rewrite H1. now apply IH2.
      * injection E as <- ->. apply lang_alt_l, cat_spec.
        constructor; [now apply IH1|assumption].
  - rewrite alt_spec. split; intros H.
    + inversion H; subst; [apply lang_alt_l; now apply IH1
                          |apply lang_alt_r; now apply IH2].
    + inversion H; subst; [apply lang_alt_l; now apply IH1
                          |apply lang_alt_r; now apply IH2].
  - rewrite cat_spec. split; intros H.
    + apply lang_cat_inv in H as (s1 & s2 & -> & H1 & H2).
      apply IH in H1. change (lang (Star r) (String c s1 ++ s2)).
      now constructor.
    + destruct (lang_star_inv _ _ H c s eq_refl) as (s1 & s2 & -> & H1 & H2).
      constructor; [now apply IH|assumption].
Qed.

(** [matches] decides membership in the language. *)
Lemma matches_spec s : forall r, matches r s = true <-> lang r s.
Proof.
  induction s as [|c s IH]; intros r; simpl.
  - apply nullable_spec.
  - rewrite IH. apply deriv_spec.
Qed.

(** [Version] returns exactly on the strings of the anchored pattern. *)
Lemma Version_spec version :
  Version version = Ok tt <-> lang _regex version.
Proof.
  unfold Version. rewrite <- matches_spec.
  destruct (matches _regex version); split; congruence.
Qed.

End RegexSemantics.

(* ------------------------------------------------------------------ *)
(** ** [generate_image_name]: fixtures, override and empty input *)

(** C1: with no base image and build number 0, [generate_image_name]
    reproduces the three fixtures of [test_generate_image_name]
    character for character. *)
Theorem generate_image_name_fixtures :
  generate_image_name [("chromap", "0.2.1"); ("samtools", "1.15")] None 0
  = Ok "mulled-v2-1f09f39f20b1c4ee36581dc81cc323c70e661633:bd74d08a359024829a7aec1638a28607bbcd8a58-0"
  /\
  generate_image_name [("pysam", "0.16.0.1"); ("biopython", "1.78")] None 0
  = Ok "mulled-v2-3a59640f3fe1ed11819984087d31d68600200c3f:185a25ca79923df85b58f42deb48f5ac4481e91f-0"
  /\
  generate_image_name [("samclip", "0.4.0"); ("samtools", "1.15")] None 0
  = Ok "mulled-v2-d057255d4027721f3ab57f6a599a2ae81cb3cbe3:13051b049b6ae536d76031ba94a0b8e78e364815-0".
Proof. repeat split; vm_compute; reflexivity. Qed.

(** An override is returned as it is: [v2_image_name] leaves before it
    looks at the targets or at the build. *)
Lemma v2_image_name_override targets image_build name :
  Galaxy.v2_image_name targets image_build (Some name) = name.
Proof. reflexivity. Qed.



(** C5, on the input where it fails: the empty sequence yields a name, the
    SHA-1 of the empty buffer tagged with the build, and no exception. *)
Lemma generate_image_name_empty_returns :
  generate_image_name [] None 0
  = Ok "mulled-v2-da39a3ee5e6b4b0d3255bfef95601890afd80709:0"
  /\ forall e, generate_image_name [] None 0 <> Raise e.
Proof.
  split; [vm_compute; reflexivity|].
  intros e H. discriminate H.
Qed.

(* ------------------------------------------------------------------ *)
(** ** [str(build_number)] *)

Lemma all_chars_app p s1 s2 :
  all_chars p (s1 ++ s2) = all_chars p s1 && all_chars p s2.
Proof.
  induction s1 as [|c s1 IH]; simpl; [reflexivity|].
  now rewrite IH, andb_assoc.
Qed.

Lemma string_of_uint_digits d :
  all_chars is_digit (NilEmpty.string_of_uint d) = true.
Proof. induction d; simpl; auto. Qed.

Lemma string_of_uint_truthy d :
  d <> Decimal.Nil -> truthy (NilEmpty.string_of_uint d) = true.
Proof. destruct d; simpl; congruence. Qed.

Lemma nilzero_string_of_uint d :
  d <> Decimal.Nil -> NilZero.string_of_uint d = NilEmpty.string_of_uint d.
Proof. destruct d; simpl; congruence. Qed.

(** The rendering is never the empty string, so it is truthy. *)
Lemma str_of_int_truthy n : truthy (str_of_int n) = true.
Proof.
  unfold str_of_int. destruct n as [|p|p]; simpl; try reflexivity.
  rewrite nilzero_string_of_uint by apply DecimalPos.Unsigned.to_uint_nonnil.
  apply string_of_uint_truthy, DecimalPos.Unsigned.to_uint_nonnil.
Qed.

(** Reading the rendering back gives the number. *)
Lemma str_of_int_read_back n :
  option_map Z.of_int (NilZero.int_of_string (str_of_int n)) = Some n.
Proof.
  unfold str_of_int. rewrite NilZero.isi.
  - simpl. now rewrite DecimalZ.of_to.
  - destruct n; simpl; try discriminate.
    intros [= H]. now apply DecimalPos.Unsigned.to_uint_nonnil in H.
  - destruct n; simpl; try discriminate.
    intros [= H]. now apply DecimalPos.Unsigned.to_uint_nonnil in H.
Qed.

Lemma to_uint_normal p : Decimal.unorm (Pos.to_uint p) = Pos.to_uint p.
Proof.
  change (Pos.to_uint p) with (N.to_uint (Npos p)).
  rewrite <- (DecimalN.Unsigned.of_to (Npos p)) at 2.
  now rewrite DecimalN.Unsigned.to_of.
Qed.

Lemma to_uint_no_leading_zero p d : Pos.to_uint p <> Decimal.D0 d.
Proof.
  intros H. pose proof (to_uint_normal p) as N. rewrite H in N.
  rewrite DecimalFacts.unorm_D0 in N. unfold Decimal.unorm in N.
  destruct (Decimal.nzhead d) eqn:E; try discriminate N.
  - injection N as <-. now apply (DecimalPos.Unsigned.to_uint_nonzero p).
  - injection N as N. subst. now apply (DecimalFacts.nzhead_nonzero d d).
Qed.

(** No leading zero: a rendering that starts with [0] is ["0"], of 0. *)
Lemma str_of_int_leading_zero n s :
  str_of_int n = String "0" s -> n = 0%Z /\ s = "".
Proof.
  unfold str_of_int. destruct n as [|p|p]; simpl.
  - intros [= <-]. now split.
  - rewrite nilzero_string_of_uint by apply DecimalPos.Unsigned.to_uint_nonnil.
    destruct (Pos.to_uint p) eqn:E; simpl; try discriminate.
    now apply to_uint_no_leading_zero in E.
  - discriminate.
Qed.

(** A number that is not negative is rendered with digits only. *)
Lemma str_of_int_digits n :
  (0 <= n)%Z -> all_chars is_digit (str_of_int n) = true.
Proof.
  unfold str_of_int. destruct n as [|p|p]; simpl; intros H.
  - reflexivity.
  - rewrite nilzero_string_of_uint by apply DecimalPos.Unsigned.to_uint_nonnil.
    apply string_of_uint_digits.
  - lia.
Qed.

(** C5, as the code has it: applied to an empty sequence of targets,
    [generate_image_name] raises nothing and returns a name.  Without an
    override the name is [mulled-v2-] followed by the SHA-1 of the empty
    buffer, a colon and the build number (there is no version hash); with
    an override it is the override. *)
Theorem generate_image_name_empty :
  forall build_number,
    generate_image_name [] None build_number
    = Ok ("mulled-v2-da39a3ee5e6b4b0d3255bfef95601890afd80709:" ++
          str_of_int build_number)
    /\ forall base_image,
         generate_image_name [] (Some base_image) build_number = Ok base_image.
Proof.
  intros b. split; [|reflexivity].
  unfold generate_image_name, Galaxy.v2_image_name. cbn [map Galaxy.sorted fold_right].
  change (join nl (map Galaxy.package_name [])) with "".
  cbn [existsb truthy orb].
  rewrite str_of_int_truthy. cbn [negb]. rewrite str_of_int_truthy.
  change (join nl []) with "".
  assert (E : Sha1.hexdigest "" = "da39a3ee5e6b4b0d3255bfef95601890afd80709")
    by (vm_compute; reflexivity).
  rewrite E. reflexivity.
Qed.

(* ------------------------------------------------------------------ *)
(** ** [parse_targets] *)

Section Split.

Lemma split_without_separator s :
  has_separator s = false -> _split_pattern_split s = [s].
Proof.
  induction s as [|c s IH]; simpl; [reflexivity|].
  destruct (Ascii.eqb c "="); simpl; [discriminate|].
  intros H. now rewrite (IH H).
Qed.

(** With a separator the list has two parts: the text before the first
    [=], which has none, and the text after the separator. *)
Lemma split_with_separator s :
  has_separator s = true ->
  exists tool version,
    _split_pattern_split s = [tool; version] /\
    has_separator tool = false /\
    (s = tool ++ "==" ++ version \/
     (s = tool ++ "=" ++ version /\ forall v, version <> String "=" v)).
Proof.
  induction s as [|c s IH]; simpl; [discriminate|].
  destruct (Ascii.eqb_spec c "=") as [->|Hc]; simpl.
  - intros _. destruct s as [|c' s'].
    + exists "", "". repeat split. right. split; [reflexivity|]. discriminate.
    + destruct (Ascii.eqb_spec c' "=") as [->|Hc'].
      * exists "", s'. repeat split. now left.
      * exists "", (String c' s'). repeat split. right.
        split; [reflexivity|]. intros v [= E _]. contradiction.
  - intros H. destruct (IH H) as (tool & version & E & Ht & Hs).
    rewrite E. exists (String c tool), version. split; [reflexivity|].
    split.
    + simpl. destruct (Ascii.eqb_spec c "="); [contradiction|assumption].
    + destruct Hs as [->| [-> Hv]]; [now left|right]. now split.
Qed.

Lemma split_two_has_separator s tool version :
  _split_pattern_split s = [tool; version] -> has_separator s = true.
Proof.
  intros H. destruct (has_separator s) eqn:E; [reflexivity|].
  rewrite (split_without_separator _ E) in H. discriminate H.
Qed.

End Split.

Section Strip.

Lemma lstrip_spec s :
  exists l, s = l ++ lstrip s /\ all_chars is_space l = true /\
            forall c s', lstrip s = String c s' -> is_space c = false.
Proof.
  induction s as [|c s (l & E & Hl & Hh)]; simpl.
  - exists "". repeat split. discriminate.
  - destruct (is_space c) eqn:Hc.
    + exists (String c l). simpl. rewrite Hc, Hl. repeat split; auto.
      now rewrite <- E.
    + exists "". repeat split. now intros c' s' [= <- _].
Qed.

Lemma rstrip_spec s :
  exists r, s = rstrip s ++ r /\ all_chars is_space r = true /\
            forall s' c, rstrip s = s' ++ String c "" -> is_space c = false.
Proof.
  induction s as [|c s (r & E & Hr & Hl)]; simpl.
  - exists "". repeat split. now intros [|? ?] c.
  - destruct (rstrip s) as [|a x] eqn:Hs.
    + simpl in E. subst r. destruct (is_space c) eqn:Hc.
      * exists (String c s). simpl. rewrite Hc, Hr. repeat split.
        now intros [|? ?] c'.
      * exists s. repeat split; auto.
        intros [|c1 s1] c'; simpl; [now intros [= <-]|].
        now destruct s1.
    + exists r. simpl in E |- *. rewrite <- E. repeat split; auto.
      intros [|c1 s1] c'; simpl; [discriminate|].
      intros [= _ H]. now apply (Hl s1 c').
Qed.

(** [strip] removes white space at both ends and nothing else. *)
Lemma strip_spec s :
  exists l r, s = l ++ strip s ++ r /\
              all_chars is_space l = true /\ all_chars is_space r = true /\
              trimmed (strip s).
Proof.
  unfold strip.
  destruct (lstrip_spec s) as (l & El & Hl & Hhead).
  destruct (rstrip_spec (lstrip s)) as (r & Er & Hr & Hlast).
  exists l, r. repeat split; auto.
  - now rewrite <- Er.
  - intros c s' H. rewrite H in Er. simpl in Er.
    now apply (Hhead c (s' ++ r)).
Qed.

End Strip.

Section Parse.

Lemma version_raises version :
  Pep440.Version version <> Ok tt ->
  exists msg, Pep440.Version version = Raise (InvalidVersion msg).
Proof.
  unfold Pep440.Version. destruct (Pep440.matches _ _); [congruence|].
  intros _. now eexists.
Qed.

Lemma parse_spec_well_formed spec tool version :
  _split_pattern_split spec = [tool; version] ->
  Pep440.Version version = Ok tt ->
  parse_spec spec = Ok (strip tool, strip version).
Proof. intros Hs Hv. unfold parse_spec. now rewrite Hs, Hv. Qed.

Lemma parse_spec_bad_version spec tool version :
  _split_pattern_split spec = [tool; version] ->
  Pep440.Version version <> Ok tt ->
  parse_spec spec = Raise (version_error version spec).
Proof.
  intros Hs Hv. destruct (version_raises _ Hv) as [msg E].
  unfold parse_spec. now rewrite Hs, E.
Qed.

Lemma parse_spec_no_separator spec :
  has_separator spec = false -> parse_spec spec = Raise (format_error spec).
Proof.
  intros H. unfold parse_spec. now rewrite (split_without_separator _ H).
Qed.

(** What one specification does, by cases. *)
Lemma parse_spec_cases spec :
  (has_separator spec = false /\ parse_spec spec = Raise (format_error spec))
  \/ (exists tool version,
        _split_pattern_split spec = [tool; version] /\
        ((Pep440.Version version = Ok tt /\
          parse_spec spec = Ok (strip tool, strip version))
         \/ (Pep440.Version version <> Ok tt /\
             parse_spec spec = Raise (version_error version spec)))).
Proof.
  destruct (has_separator spec) eqn:H.
  - right. destruct (split_with_separator _ H) as (tool & version & E & _).
    exists tool, version. split; [assumption|].
    destruct (Pep440.Version version) as [[]|e] eqn:V.
    + left. split; [reflexivity|]. exact (parse_spec_well_formed _ _ _ E V).
    + right. assert (N : Pep440.Version version <> Ok tt) by congruence.
      split; [congruence|]. exact (parse_spec_bad_version _ _ _ E N).
  - left. split; [reflexivity|]. now apply parse_spec_no_separator.
Qed.

Lemma not_well_formed_raises spec :
  ~ well_formed spec -> exists e, parse_spec spec = Raise e.
Proof.
  intros N. destruct (parse_spec_cases spec) as [[_ E]|(t & v & S & [[V E]|[V E]])].
  - eexists; eassumption.
  - exfalso. apply N. now exists t, v.
  - eexists; eassumption.
Qed.

(** The loop over accepted specifications appends their pairs, one for
    one and in their order. *)
Lemma parse_loop_well_formed specs :
  Forall well_formed specs ->
  forall acc, exists pairs,
    parse_loop specs acc = Ok (acc ++ pairs)%list /\
    Forall2 (fun spec p =>
               exists tool version,
                 _split_pattern_split spec = [tool; version] /\
                 p = (strip tool, strip version)) specs pairs.
Proof.
  induction 1 as [|spec specs (tool & version & Hs & Hv) _ IH]; intros acc.
  - exists []. simpl. now rewrite List.app_nil_r.
  - simpl. rewrite (parse_spec_well_formed _ _ _ Hs Hv). simpl.
    destruct (IH (acc ++ [(strip tool, strip version)])%list) as (pairs & E & F).
    exists ((strip tool, strip version) :: pairs). split.
    + now rewrite E, <- List.app_assoc.
    + constructor; [|assumption]. now exists tool, version.
Qed.

(** The first specification that raises ends the loop with its own
    exception, whatever was collected before it. *)
Lemma parse_loop_first_error good bad rest e :
  Forall well_formed good ->
  parse_spec bad = Raise e ->
  forall acc, parse_loop (good ++ bad :: rest) acc = Raise e.
Proof.
  intros Hg Hb. induction Hg as [|spec specs (tool & version & Hs & Hv) _ IH];
    intros acc; simpl.
  - now rewrite Hb.
  - rewrite (parse_spec_well_formed _ _ _ Hs Hv). simpl. apply IH.
Qed.

(** An exception of the loop is the exception of one of its
    specifications. *)
Lemma parse_loop_raise_origin specs :
  forall acc e, parse_loop specs acc = Raise e ->
                exists spec, In spec specs /\ parse_spec spec = Raise e.
Proof.
  induction specs as [|spec specs IH]; intros acc e; simpl; [discriminate|].
  destruct (parse_spec spec) as [p|e'] eqn:E; simpl.
  - intros H. destruct (IH _ _ H) as (s & Hin & Hs). exists s. auto.
  - intros [= <-]. exists spec. auto.
Qed.

Lemma append_cancel_r (s1 s2 t : string) : s1 ++ t = s2 ++ t -> s1 = s2.
Proof.
  intros H.
  assert (L : forall a b : string,
             String.length (a ++ b) = String.length a + String.length b).
  { induction a; simpl; intros; [reflexivity|now rewrite IHa]. }
  revert s2 H. induction s1 as [|c s1 IH]; intros [|c2 s2] H; simpl in H.
  - reflexivity.
  - apply (f_equal String.length) in H. simpl in H. rewrite L in H. lia.
  - apply (f_equal String.length) in H. simpl in H. rewrite L in H. lia.
  - injection H as -> H. now rewrite (IH _ H).
Qed.

(** The message of the format error determines the string it names. *)
Lemma format_error_inj s1 s2 : format_error s1 = format_error s2 -> s1 = s2.
Proof.
  unfold format_error. intros [= H]. now apply append_cancel_r in H.
Qed.

Lemma format_error_not_version_error s v spec :
  format_error s <> version_error v spec.
Proof. unfold format_error, version_error. simpl. discriminate. Qed.

Lemma format_error_origin specs spec :
  parse_targets specs = Raise (format_error spec) ->
  has_separator spec = false.
Proof.
  intros H. apply parse_loop_raise_origin in H as (s & _ & Hs).
  destruct (parse_spec_cases s) as [[N E]|(t & v & _ & [[_ E]|[_ E]])];
    rewrite E in Hs.
  - assert (F : format_error s = format_error spec) by congruence.
    apply format_error_inj in F. now subst.
  - discriminate.
  - assert (F : format_error spec = version_error v s) by congruence.
    now apply format_error_not_version_error in F.
Qed.

End Parse.

(** C10: [parse_targets] applied to no specification at all returns the
    empty list and raises nothing. *)
Theorem parse_targets_nil : parse_targets [] = Ok [].
Proof. reflexivity. Qed.

(** C6, on the input where it fails: ["=1.0"] splits into an empty tool
    name and the version ["1.0"], and is accepted with the empty name
    instead of being refused. *)
Lemma parse_targets_empty_tool_accepted :
  _split_pattern_split "=1.0" = [""; "1.0"] /\
  parse_targets ["=1.0"] = Ok [("", "1.0")] /\
  parse_targets ["=1.0"] <> Raise (format_error "=1.0").
Proof. repeat split; try (vm_compute; reflexivity). vm_compute. discriminate. Qed.

(** C6, as the code has it: [parse_targets] fails with the format error,
    whose message names the offending string, whenever that string
    contains no [=] (the separator is absent, as when only [<] or [>] is
    used) and the entries before it were accepted.  A string that contains
    [=] and none of the other comparison characters [<], [>], [!], [~] is
    cut at its first [=], with the [=] that follows it at once when there
    is one, into exactly two parts: the text before that [=] and the text
    after the separator, either of which may be empty; the format error
    never names such a string.  Strings that join another comparison
    character to [=], as [>=] does, are left out of the statement.  Both
    well-formed examples return [("foo","0.1.2"); ("bar","1.1")], and
    ["foo<0.1.2"] and ["bar>1.1"] are refused with the format error. *)
Theorem parse_targets_format_error :
  (forall good spec rest,
      Forall well_formed good ->
      has_separator spec = false ->
      parse_targets (good ++ spec :: rest) = Raise (format_error spec))
  /\ (forall specs spec,
         has_separator spec = true ->
         has_operator spec = false ->
         parse_targets specs <> Raise (format_error spec))
  /\ (forall spec,
         has_separator spec = true ->
         has_operator spec = false ->
         exists tool version,
           _split_pattern_split spec = [tool; version] /\
           has_separator tool = false /\
           (spec = tool ++ "==" ++ version \/
            (spec = tool ++ "=" ++ version /\
             forall v, version <> String "=" v)))
  /\ parse_targets ["foo==0.1.2"; "bar==1.1"] = Ok [("foo", "0.1.2"); ("bar", "1.1")]
  /\ parse_targets ["foo=0.1.2"; "bar=1.1"] = Ok [("foo", "0.1.2"); ("bar", "1.1")]
  /\ parse_targets ["foo<0.1.2"; "bar==1.1"] = Raise (format_error "foo<0.1.2")
  /\ parse_targets ["foo=0.1.2"; "bar>1.1"] = Raise (format_error "bar>1.1").
Proof.
  split; [|split; [|split]].
  - intros good spec rest Hg Hs. unfold parse_targets.
    apply parse_loop_first_error; [assumption|].
    now apply parse_spec_no_separator.
  - intros specs spec H _ E. apply format_error_origin in E. congruence.
  - intros spec H _. exact (split_with_separator spec H).
  - repeat split; vm_compute; reflexivity.
Qed.

Lemma parse_targets_format_error_witness :
  (Forall well_formed ["foo=0.1.2"] /\
   has_separator "bar>1.1" = false /\
   parse_targets (["foo=0.1.2"] ++ "bar>1.1" :: ["baz==2"])
   = Raise (format_error "bar>1.1"))
  /\ parse_targets ["foo==0.1.2=3"; "bar"] <> Raise (format_error "foo==0.1.2=3")
  /\ (exists tool version,
         _split_pattern_split "foo==0.1.2=3" = [tool; version] /\
         has_separator tool = false /\
         ("foo==0.1.2=3" = tool ++ "==" ++ version \/
          ("foo==0.1.2=3" = tool ++ "=" ++ version /\
           forall v, version <> String "=" v))).
Proof.
  assert (G : Forall well_formed ["foo=0.1.2"]).
  { repeat constructor. exists "foo", "0.1.2". split; vm_compute; reflexivity. }
  assert (E : parse_targets (["foo=0.1.2"] ++ "bar>1.1" :: ["baz==2"])
              = Raise (format_error "bar>1.1")).
  { apply (proj1 parse_targets_format_error ["foo=0.1.2"] "bar>1.1" ["baz==2"]).
    - exact G.
    - reflexivity. }
  split; [|split].
  - split; [exact G|]. split; [reflexivity|exact E].
  - apply (proj1 (proj2 parse_targets_format_error)
                 ["foo==0.1.2=3"; "bar"] "foo==0.1.2=3"); reflexivity.
  - apply (proj1 (proj2 (proj2 parse_targets_format_error)) "foo==0.1.2=3");
      reflexivity.
Defined.

(** C7: a specification that splits into two parts and whose second part
    is not a PEP 440 version makes [parse_targets] fail, when the entries
    before it were accepted, with a [ValueError] whose message names that
    version substring and the whole specification; so do the two lists of
    [test_noncompliant_version]. *)
Theorem parse_targets_version_error :
  (forall good spec rest tool version,
      Forall well_formed good ->
      _split_pattern_split spec = [tool; version] ->
      Pep440.Version version <> Ok tt ->
      parse_targets (good ++ spec :: rest)
      = Raise (ValueError ("Not a PEP440 version spec: '" ++ version ++
                           "' in '" ++ spec ++ "'")))
  /\ parse_targets ["foo==0a.1.2"; "bar==1.1"]
     = Raise (ValueError "Not a PEP440 version spec: '0a.1.2' in 'foo==0a.1.2'")
  /\ parse_targets ["foo==0.1.2"; "bar==1.b1b"]
     = Raise (ValueError "Not a PEP440 version spec: '1.b1b' in 'bar==1.b1b'").
Proof.
  split.
  - intros good spec rest tool version Hg Hs Hv. unfold parse_targets.
    apply parse_loop_first_error; [assumption|].
    exact (parse_spec_bad_version _ _ _ Hs Hv).
  - split; vm_compute; reflexivity.
Qed.

Lemma parse_targets_version_error_witness :
  Forall well_formed ["foo==0.1.2"] /\
  _split_pattern_split "bar==1.b1b" = ["bar"; "1.b1b"] /\
  Pep440.Version "1.b1b" <> Ok tt /\
  parse_targets (["foo==0.1.2"] ++ "bar==1.b1b" :: ["baz=3"])
  = Raise (ValueError "Not a PEP440 version spec: '1.b1b' in 'bar==1.b1b'").
Proof.
  assert (G : Forall well_formed ["foo==0.1.2"]).
  { repeat constructor. exists "foo", "0.1.2". split; vm_compute; reflexivity. }
  assert (V : Pep440.Version "1.b1b" <> Ok tt) by (vm_compute; discriminate).
  split; [exact G|]. split; [reflexivity|]. split; [exact V|].
  apply (proj1 parse_targets_version_error
               ["foo==0.1.2"] "bar==1.b1b" ["baz=3"] "bar" "1.b1b").
  - exact G.
  - reflexivity.
  - exact V.
Defined.

(** C8: [parse_targets] keeps the order and gives all or nothing.  When
    every entry is well formed it returns one pair per entry, in the order
    of the entries, each made of the two parts of its entry stripped of
    the white space at their ends (and of nothing else).  When an entry is
    not well formed and those before it are, the call raises the error of
    that entry, and returns no list. *)
Theorem parse_targets_order_all_or_nothing :
  (forall specs,
      Forall well_formed specs ->
      exists pairs,
        parse_targets specs = Ok pairs /\
        Forall2 (fun spec p =>
                   exists tool version,
                     _split_pattern_split spec = [tool; version] /\
                     p = (strip tool, strip version) /\
                     trimmed (fst p) /\ trimmed (snd p)) specs pairs)
  /\ (forall s, exists l r,
         s = l ++ strip s ++ r /\
         all_chars is_space l = true /\ all_chars is_space r = true)
  /\ (forall good bad rest,
         Forall well_formed good ->
         ~ well_formed bad ->
         exists e,
           parse_targets [bad] = Raise e /\
           parse_targets (good ++ bad :: rest) = Raise e).
Proof.
  split; [|split].
  - intros specs H.
    destruct (parse_loop_well_formed specs H []) as (pairs & E & F).
    exists pairs. split; [exact E|].
    revert F. apply Forall2_impl. intros spec p (t & v & S & ->).
    exists t, v. repeat split; try assumption; simpl.
    + destruct (strip_spec t) as (_ & _ & _ & _ & _ & T). apply T.
    + destruct (strip_spec t) as (_ & _ & _ & _ & _ & T). apply T.
    + destruct (strip_spec v) as (_ & _ & _ & _ & _ & T). apply T.
    + destruct (strip_spec v) as (_ & _ & _ & _ & _ & T). apply T.
  - intros s. destruct (strip_spec s) as (l & r & E & Hl & Hr & _).
    now exists l, r.
  - intros good bad rest Hg Hb.
    destruct (not_well_formed_raises _ Hb) as [e E]. exists e. split.
    + unfold parse_targets. simpl. now rewrite E.
    + unfold parse_targets. now apply parse_loop_first_error.
Qed.

Lemma parse_targets_order_all_or_nothing_witness :
  (exists pairs, parse_targets [" foo == 0.1.2 "; "bar=1.1"] = Ok pairs) /\
  (exists e, parse_targets (["foo==0.1.2"] ++ "bar" :: ["baz=1"]) = Raise e).
Proof.
  split.
  - destruct (proj1 parse_targets_order_all_or_nothing
                    [" foo == 0.1.2 "; "bar=1.1"]) as (pairs & E & _).
    + repeat constructor.
      * exists " foo ", " 0.1.2 ". split; vm_compute; reflexivity.
      * exists "bar", "1.1". split; vm_compute; reflexivity.
    + now exists pairs.
  - destruct (proj2 (proj2 parse_targets_order_all_or_nothing)
                    ["foo==0.1.2"] "bar" ["baz=1"]) as (e & _ & E).
    + repeat constructor. exists "foo", "0.1.2". split; vm_compute; reflexivity.
    + intros (t & v & S & _). vm_compute in S. discriminate S.
    + now exists e.
Defined.

(* ------------------------------------------------------------------ *)
(** ** [image_exists] *)

(** C9, on the input where it fails: when the request cannot be completed
    [requests.get] raises, nothing catches the exception, and
    [image_exists] raises it instead of returning [False]. *)
Lemma image_exists_transport_failure_raises :
  image_exists unreachable_registry "samtools:1.15"
  = ([], Raise (RequestException "ConnectionError"))
  /\ forall b, snd (image_exists unreachable_registry "samtools:1.15") <> Ok b.
Proof. split; [reflexivity|]. intros b. discriminate. Qed.

(** C9, as the code has it: [image_exists] sends one GET request to
    [https://quay.io/biocontainers/<image_name>/]; it returns [True]
    exactly when the request yields a response with status 200, [False]
    for a response with any other status, and when the request raises (a
    transport-level failure) it raises the same exception. *)
Theorem image_exists_spec :
  forall (requests_get : string -> result Response) (image_name : string),
    quay_url image_name = "https://quay.io/biocontainers/" ++ image_name ++ "/"
    /\ (snd (image_exists requests_get image_name) = Ok true <->
        exists response, requests_get (quay_url image_name) = Ok response /\
                         status_code response = 200%Z)
    /\ (forall response,
           requests_get (quay_url image_name) = Ok response ->
           status_code response <> 200%Z ->
           snd (image_exists requests_get image_name) = Ok false)
    /\ (forall e,
           requests_get (quay_url image_name) = Raise e ->
           snd (image_exists requests_get image_name) = Raise e).
Proof.
  intros get name. split; [reflexivity|]. unfold image_exists.
  destruct (get (quay_url name)) as [response|e] eqn:G.
  - destruct (Z.eqb_spec (status_code response) 200) as [E|N]; simpl.
    + split; [|split].
      * split; [intros _; now exists response|reflexivity].
      * intros r [= <-] H. contradiction.
      * discriminate.
    + split; [|split].
      * split; [discriminate|]. intros (r & [= <-] & H). contradiction.
      * reflexivity.
      * discriminate.
  - simpl. split; [|split].
    + split; [discriminate|]. intros (r & H & _). discriminate H.
    + discriminate.
    + now intros e' [= <-].
Qed.

Lemma image_exists_spec_witness :
  snd (image_exists sample_registry "samtools:1.15") = Ok true /\
  snd (image_exists sample_registry "nothing:0") = Ok false.
Proof.
  split.
  - apply (proj1 (proj2 (image_exists_spec sample_registry "samtools:1.15"))).
    exists (mkResponse 200). split; reflexivity.
  - apply (proj1 (proj2 (proj2 (image_exists_spec sample_registry "nothing:0")))
                 (mkResponse 404)).
    + reflexivity.
    + simpl. discriminate.
Defined.

(* ------------------------------------------------------------------ *)
(** ** The order of [str] and the sort of the targets *)

Section StringOrder.

Lemma leb_nil_l s : String.leb "" s = true.
Proof. now destruct s. Qed.

Lemma leb_cons c1 s1 c2 s2 :
  String.leb (String c1 s1) (String c2 s2) = true <->
  (N_of_ascii c1 < N_of_ascii c2)%N \/ (c1 = c2 /\ String.leb s1 s2 = true).
Proof.
  unfold String.leb. simpl. unfold Ascii.compare.
  destruct (N.compare_spec (N_of_ascii c1) (N_of_ascii c2)) as [E|L|G].
  - assert (c1 = c2) as ->.
    { rewrite <- (ascii_N_embedding c1), <- (ascii_N_embedding c2).
      now rewrite E. }
    split; [now right|]. intros [H|[_ H]]; [lia|exact H].
  - split; [now left|reflexivity].
  - split; [discriminate|]. intros [H|[-> _]]; lia.
Qed.

Lemma leb_trans a b c :
  String.leb a b = true -> String.leb b c = true -> String.leb a c = true.
Proof.
  revert b c. induction a as [|x a IH]; intros b c Hab Hbc.
  - apply leb_nil_l.
  - destruct b as [|y b]; [discriminate Hab|].
    destruct c as [|z c]; [discriminate Hbc|].
    apply leb_cons in Hab, Hbc. apply leb_cons.
    destruct Hab as [Hab|[-> Hab]], Hbc as [Hbc|[-> Hbc]].
    + left. lia.
    + now left.
    + now left.
    + right. split; [reflexivity|]. now apply (IH b c).
Qed.

End StringOrder.

Section Sorting.
Import Galaxy.

Lemma insert_perm t l : Permutation (t :: l) (insert t l).
Proof.
  induction l as [|u l IH]; simpl; [reflexivity|].
  destruct (String.leb _ _); [reflexivity|].
  rewrite perm_swap. now constructor.
Qed.

(** The sorted list has the targets of the input, each as often. *)
Lemma sorted_perm l : Permutation l (sorted l).
Proof.
  induction l as [|t l IH]; simpl; [constructor|].
  rewrite <- insert_perm. now constructor.
Qed.

Lemma insert_sorted t l :
  StronglySorted name_le l -> StronglySorted name_le (insert t l).
Proof.
  induction 1 as [|u l Hl IH Hu]; simpl.
  - repeat constructor.
  - destruct (String.leb (package_name t) (package_name u)) eqn:E.
    + constructor; [now constructor|]. constructor; [exact E|].
      revert Hu. apply Forall_impl. intros w Hw.
      unfold name_le in *. now apply (leb_trans _ (package_name u)).
    + constructor; [exact IH|].
      apply (Permutation_Forall (insert_perm t l)). constructor; [|exact Hu].
      unfold name_le. destruct (String.leb_total (package_name t) (package_name u));
        congruence.
Qed.

(** The sorted list is in the order of the package names. *)
Lemma sorted_sorted l : StronglySorted name_le (sorted l).
Proof.
  induction l as [|t l IH]; simpl; [constructor|]. now apply insert_sorted.
Qed.

(** The sort is stable: among targets of one name the input order is
    kept, so the sorted list is what every stable sort returns. *)
Lemma insert_stable nm t l :
  filter (fun u => String.eqb (package_name u) nm) (insert t l)
  = filter (fun u => String.eqb (package_name u) nm) (t :: l).
Proof.
  induction l as [|u l IH]; [reflexivity|].
  cbn [insert]. destruct (String.leb (package_name t) (package_name u)) eqn:E;
    [reflexivity|].
  cbn [filter] in *. rewrite IH.
  destruct (String.eqb_spec (package_name u) nm) as [Hu|Hu];
    destruct (String.eqb_spec (package_name t) nm) as [Ht|Ht]; try reflexivity.
  rewrite Ht, <- Hu in E.
  destruct (String.leb_total (package_name u) (package_name u)); congruence.
Qed.

Lemma sorted_stable nm l :
  filter (fun u => String.eqb (package_name u) nm) (sorted l)
  = filter (fun u => String.eqb (package_name u) nm) l.
Proof.
  induction l as [|t l IH]; [reflexivity|].
  cbn [sorted fold_right]. fold (sorted l). rewrite insert_stable.
  cbn [filter]. now rewrite IH.
Qed.

End Sorting.

Section SortedUnique.
Context {A : Type} (R : A -> A -> Prop).

(** Two sorted lists with the same elements are the same list, when
    elements that are below each other are equal. *)
Lemma sorted_unique (l l' : list A) :
  (forall a b, In a l -> In b l -> R a b -> R b a -> a = b) ->
  StronglySorted R l -> StronglySorted R l' -> Permutation l l' -> l = l'.
Proof.
  revert l'. induction l as [|x l IH]; intros l' Anti Hl Hl' P.
  - now apply Permutation_nil in P.
  - destruct l' as [|y l'].
    { symmetry in P. now apply Permutation_nil in P. }
    apply StronglySorted_inv in Hl as [Hl Hx].
    apply StronglySorted_inv in Hl' as [Hl' Hy].
    rewrite Forall_forall in Hx, Hy.
    assert (x = y) as <-.
    { assert (Ix : In x (y :: l')) by (apply (Permutation_in _ P); now left).
      assert (Iy : In y (x :: l))
        by (apply (Permutation_in _ (Permutation_sym P)); now left).
      destruct Ix as [->|Ix]; [reflexivity|].
      destruct Iy as [->|Iy]; [reflexivity|].
      apply Anti; [now left|now right|now apply Hx|now apply Hy]. }
    f_equal. apply IH; try assumption.
    + intros a b Ia Ib. apply Anti; now right.
    + now apply Permutation_cons_inv in P.
Qed.

Lemma StronglySorted_map {B : Type} (f : B -> A) (l : list B) :
  StronglySorted (fun a b => R (f a) (f b)) l -> StronglySorted R (map f l).
Proof.
  induction 1 as [|x l Hl IH Hx]; simpl; constructor; [assumption|].
  now apply Forall_map.
Qed.

End SortedUnique.

(* ------------------------------------------------------------------ *)
(** ** [generate_image_name] on several targets *)

Section Digest.

Lemma hex_digit_is_hex x : is_hex (Sha1.hex_digit x) = true.
Proof.
  unfold Sha1.hex_digit.
  destruct (x mod 16)%Z as [|p|p]; try reflexivity.
  do 4 (try destruct p as [p|p|]; try reflexivity).
Qed.

Lemma hexdigest_hex40 s : hex40 (Sha1.hexdigest s).
Proof.
  unfold hex40, Sha1.hexdigest, Sha1.hex_of_state, Sha1.hex8. split.
  - reflexivity.
  - cbn [all_chars]. now rewrite !hex_digit_is_hex.
Qed.

Lemma hexdigest_truthy s : truthy (Sha1.hexdigest s) = true.
Proof. reflexivity. Qed.

End Digest.

Section SeveralTargets.
Import Galaxy.

(** The name of a list that is not a singleton depends on the sorted
    targets through their names and versions only. *)
Lemma v2_image_name_many ts b :
  List.length ts <> 1%nat ->
  v2_image_name ts (Some b) None
  = "mulled-v2-"
      ++ Sha1.hexdigest (join nl (map package_name (sorted ts)))
      ++ (if existsb truthy_opt (map version (sorted ts)) then
            ":" ++ Sha1.hexdigest
                     (join nl (map (fun v => or_else v "null")
                                   (map version (sorted ts))))
                ++ (if truthy b then "-" ++ b else "")
          else if truthy b then ":" ++ b else "").
Proof.
  intros H. rewrite !map_map.
  assert (X : existsb truthy_opt (map version (sorted ts))
              = existsb (fun t => truthy_opt (version t)) (sorted ts)).
  { induction (sorted ts) as [|t l IH]; simpl; [reflexivity|]. now rewrite IH. }
  rewrite X. clear X.
  destruct ts as [|t [|u l]]; [|contradiction|];
    cbv beta iota zeta delta [v2_image_name];
    destruct (existsb _ _); destruct (truthy b) eqn:Tb;
    cbn [negb orb truthy]; rewrite ?hexdigest_truthy, ?Tb;
    cbn [negb orb truthy]; reflexivity.
Qed.

End SeveralTargets.

Section Permutations.
Import Galaxy.

Lemma targets_of_perm l l' :
  Permutation l l' -> Permutation (targets_of l) (targets_of l').
Proof. apply Permutation_map. Qed.

Lemma in_sorted_targets t targets :
  In t (sorted (targets_of targets)) ->
  exists n v, In (n, v) targets /\ t = build_target n (Some v) None.
Proof.
  intros H. apply (Permutation_in _ (Permutation_sym (sorted_perm _))) in H.
  apply in_map_iff in H as ([n v] & <- & H). now exists n, v.
Qed.

(** The sorted lists of two arrangements of the same targets show the
    same names and versions when one name comes with one version. *)
Lemma sorted_view_perm targets targets' :
  (forall n v n' v',
      In (n, v) targets -> In (n', v') targets ->
      lower n = lower n' -> v = v') ->
  Permutation targets targets' ->
  map (fun t => (package_name t, version t)) (sorted (targets_of targets))
  = map (fun t => (package_name t, version t)) (sorted (targets_of targets')).
Proof.
  intros Hsame P.
  apply (sorted_unique (fun a b => String.leb (fst a) (fst b) = true)).
  - intros a b Ia Ib Hab Hba.
    apply in_map_iff in Ia as (t & <- & Ia), Ib as (u & <- & Ib).
    apply in_sorted_targets in Ia as (n & v & Inv & ->).
    apply in_sorted_targets in Ib as (n' & v' & Inv' & ->).
    simpl in *. pose proof (String.leb_antisym _ _ Hab Hba) as E.
    rewrite E. now rewrite (Hsame _ _ _ _ Inv Inv' E).
  - apply StronglySorted_map. apply sorted_sorted.
  - apply StronglySorted_map. apply sorted_sorted.
  - apply Permutation_map.
    rewrite <- !sorted_perm. now apply targets_of_perm.
Qed.

End Permutations.

(** C2, on the input where it fails: two targets of one name and different
    versions.  The sort compares the names only and keeps the input order
    of equal names, so the versions are hashed in the order given. *)
Lemma generate_image_name_order_matters :
  Permutation [("a", "1"); ("a", "2")] [("a", "2"); ("a", "1")] /\
  generate_image_name [("a", "1"); ("a", "2")] None 0
  <> generate_image_name [("a", "2"); ("a", "1")] None 0.
Proof. split; [apply perm_swap|]. vm_compute. discriminate. Qed.

(** C2, as the code has it: for every sequence of targets in which targets
    of the same lower-cased name have the same version (so whenever the
    names are pairwise different), every base-image override and every
    build number, [generate_image_name] returns the same string on every
    permutation of the sequence. *)
Theorem generate_image_name_permutation :
  forall targets targets' base_image build_number,
    (forall n v n' v',
        In (n, v) targets -> In (n', v') targets ->
        lower n = lower n' -> v = v') ->
    Permutation targets targets' ->
    generate_image_name targets base_image build_number
    = generate_image_name targets' base_image build_number.
Proof.
  intros targets targets' [base|] b Hsame P; [reflexivity|].
  unfold generate_image_name. f_equal.
  change (Galaxy.v2_image_name (targets_of targets) (Some (str_of_int b)) None
          = Galaxy.v2_image_name (targets_of targets') (Some (str_of_int b)) None).
  pose proof (targets_of_perm _ _ P) as Pt.
  destruct (Nat.eq_dec (List.length (targets_of targets)) 1) as [L|L].
  - destruct (targets_of targets) as [|t [|u l]]; try discriminate L.
    now rewrite (Permutation_length_1_inv Pt).
  - rewrite !v2_image_name_many;
      [|now rewrite <- (Permutation_length Pt)|assumption].
    pose proof (sorted_view_perm _ _ Hsame P) as V.
    assert (N : map Galaxy.package_name (Galaxy.sorted (targets_of targets))
                = map Galaxy.package_name (Galaxy.sorted (targets_of targets'))).
    { apply (f_equal (map fst)) in V. now rewrite !map_map in V. }
    assert (W : map Galaxy.version (Galaxy.sorted (targets_of targets))
                = map Galaxy.version (Galaxy.sorted (targets_of targets'))).
    { apply (f_equal (map snd)) in V. now rewrite !map_map in V. }
    now rewrite N, W.
Qed.

Lemma generate_image_name_permutation_witness :
  generate_image_name [("samtools", "1.15"); ("chromap", "0.2.1")] None 0
  = generate_image_name [("chromap", "0.2.1"); ("samtools", "1.15")] None 0.
Proof.
  apply generate_image_name_permutation.
  - intros n v n' v' H H' E. simpl in H, H'.
    destruct H as [[= <- <-]|[[= <- <-]|[]]];
      destruct H' as [[= <- <-]|[[= <- <-]|[]]];
      try reflexivity; vm_compute in E; discriminate E.
  - apply perm_swap.
Defined.

(** C3, on the input where it fails: a single target is named
    [<name>:<version>], without any hash. *)
Lemma generate_image_name_single_target :
  generate_image_name [("samtools", "1.15")] None 0 = Ok "samtools:1.15" /\
  forall package_hash version_hash,
    generate_image_name [("samtools", "1.15")] None 0
    <> Ok ("mulled-v2-" ++ package_hash ++ ":" ++ version_hash ++ "-" ++
           str_of_int 0).
Proof.
  split; [vm_compute; reflexivity|].
  intros ph vh H. vm_compute in H. discriminate H.
Qed.

(** C3, as the code has it: for every sequence of at least two targets of
    which at least one has a non-empty version, and without a base-image
    override, [generate_image_name] returns
    [mulled-v2-<package_hash>:<version_hash>-<build_number>], where the two
    hashes are SHA-1 digests of forty hexadecimal digits and the build
    number is in decimal: it reads back as the number, it is ["0"] for 0
    and starts with [0] in no other case, and it has digits only when the
    number is not negative. *)
Theorem generate_image_name_format :
  forall targets build_number,
    (2 <= List.length targets)%nat ->
    (exists n v, In (n, v) targets /\ v <> "") ->
    generate_image_name targets None build_number
    = Ok ("mulled-v2-" ++ package_hash targets ++ ":" ++
          version_hash targets ++ "-" ++ str_of_int build_number)
    /\ hex40 (package_hash targets)
    /\ hex40 (version_hash targets)
    /\ option_map Z.of_int (NilZero.int_of_string (str_of_int build_number))
       = Some build_number
    /\ str_of_int 0 = "0"
    /\ (forall s, str_of_int build_number = String "0" s ->
                  build_number = 0%Z /\ s = "")
    /\ ((0 <= build_number)%Z ->
        all_chars is_digit (str_of_int build_number) = true).
Proof.
  intros targets b L (n & v & Hin & Hv).
  refine (conj _ (conj _ (conj _ (conj _ (conj _ (conj _ _)))))).
  - unfold generate_image_name. f_equal.
    change (Galaxy.v2_image_name (targets_of targets) (Some (str_of_int b)) None
            = "mulled-v2-" ++ package_hash targets ++ ":" ++
              version_hash targets ++ "-" ++ str_of_int b).
    rewrite v2_image_name_many
      by (unfold targets_of; rewrite length_map; lia).
    assert (X : existsb Galaxy.truthy_opt
                  (map Galaxy.version (Galaxy.sorted (targets_of targets)))
                = true).
    { apply existsb_exists. exists (Some v). split.
      - apply in_map_iff.
        exists (Galaxy.build_target n (Some v) None). split; [reflexivity|].
        apply (Permutation_in _ (sorted_perm _)).
        apply in_map_iff. now exists (n, v).
      - destruct v; [contradiction|reflexivity]. }
    rewrite X, str_of_int_truthy, map_map. reflexivity.
  - apply hexdigest_hex40.
  - apply hexdigest_hex40.
  - apply str_of_int_read_back.
  - reflexivity.
  - intros s H. now apply str_of_int_leading_zero in H.
  - apply str_of_int_digits.
Qed.

Lemma generate_image_name_format_witness :
  generate_image_name [("chromap", "0.2.1"); ("samtools", "1.15")] None 3
  = Ok ("mulled-v2-" ++
        package_hash [("chromap", "0.2.1"); ("samtools", "1.15")] ++ ":" ++
        version_hash [("chromap", "0.2.1"); ("samtools", "1.15")] ++ "-" ++
        str_of_int 3).
Proof.
  refine (proj1 (generate_image_name_format
                   [("chromap", "0.2.1"); ("samtools", "1.15")] 3 _ _)).
  - simpl. lia.
  - exists "chromap", "0.2.1". split; [now left|discriminate].
Defined.

(* ------------------------------------------------------------------ *)
(** * Further properties of the code *)

(** ** Strings *)

Section Strings.

Lemma append_assoc (a b c : string) : (a ++ b) ++ c = a ++ b ++ c.
Proof. induction a as [|x a IH]; simpl; [reflexivity|now rewrite IH]. Qed.

Lemma append_nil_r (a : string) : a ++ "" = a.
Proof. induction a as [|x a IH]; simpl; [reflexivity|now rewrite IH]. Qed.

Lemma append_cancel_l (a b c : string) : a ++ b = a ++ c -> b = c.
Proof. induction a as [|x a IH]; simpl; [auto|]. intros [= H]. auto. Qed.

Lemma has_separator_app a b :
  has_separator (a ++ b) = has_separator a || has_separator b.
Proof.
  induction a as [|x a IH]; simpl; [reflexivity|].
  now rewrite IH, orb_assoc.
Qed.

Lemma has_separator_chars s :
  has_separator s = false <-> all_chars not_separator s = true.
Proof.
  unfold not_separator. induction s as [|c s IH]; simpl; [tauto|].
  destruct (Ascii.eqb c "="); simpl; [split; discriminate|exact IH].
Qed.

Lemma all_spaces_lstrip l : all_chars is_space l = true -> lstrip l = "".
Proof.
  induction l as [|c l IH]; simpl; [reflexivity|].
  destruct (is_space c); simpl; [exact IH|discriminate].
Qed.

Lemma all_spaces_rstrip r : all_chars is_space r = true -> rstrip r = "".
Proof.
  induction r as [|c r IH]; simpl; [reflexivity|].
  destruct (is_space c); simpl; [|discriminate].
  intros H. now rewrite (IH H).
Qed.

Lemma lstrip_app l s :
  all_chars is_space l = true -> lstrip (l ++ s) = lstrip s.
Proof.
  induction l as [|c l IH]; simpl; [reflexivity|].
  destruct (is_space c); simpl; [exact IH|discriminate].
Qed.

Lemma rstrip_app s r :
  all_chars is_space r = true -> rstrip (s ++ r) = rstrip s.
Proof.
  intros H. induction s as [|c s IH]; simpl.
  - now apply all_spaces_rstrip.
  - now rewrite IH.
Qed.

(** What [lstrip] leaves of a string followed by white space. *)
Lemma lstrip_before_spaces s r :
  all_chars is_space r = true ->
  lstrip (s ++ r) = lstrip s ++ r \/ (lstrip (s ++ r) = "" /\ lstrip s = "").
Proof.
  intros H. induction s as [|c s IH]; simpl.
  - right. split; [now apply all_spaces_lstrip|reflexivity].
  - destruct (is_space c); [exact IH|now left].
Qed.

(** White space around a value does not change what [strip] returns. *)
Lemma strip_affixes l s r :
  all_chars is_space l = true -> all_chars is_space r = true ->
  strip (l ++ s ++ r) = strip s.
Proof.
  intros Hl Hr. unfold strip. rewrite (lstrip_app _ _ Hl).
  destruct (lstrip_before_spaces s r Hr) as [E|[E1 E2]].
  - rewrite E. now apply rstrip_app.
  - now rewrite E1, E2.
Qed.

Lemma rstrip_fixed s :
  (forall s' c, s = s' ++ String c "" -> is_space c = false) -> rstrip s = s.
Proof.
  induction s as [|c s IH]; intros H; simpl; [reflexivity|].
  rewrite IH.
  - destruct s; [|reflexivity].
    now rewrite (H "" c eq_refl).
  - intros s' c' E. apply (H (String c s') c'). simpl. now rewrite E.
Qed.

(** A trimmed string is left as it is. *)
Lemma strip_trimmed s : trimmed s -> strip s = s.
Proof.
  intros [Hh Hl]. unfold strip.
  assert (E : lstrip s = s).
  { destruct s as [|c s]; simpl; [reflexivity|]. now rewrite (Hh c s eq_refl). }
  rewrite E. now apply rstrip_fixed.
Qed.

Lemma strip_idempotent s : strip (strip s) = strip s.
Proof.
  apply strip_trimmed. destruct (strip_spec s) as (_ & _ & _ & _ & _ & T).
  exact T.
Qed.

(** A string without any white space is trimmed. *)
Lemma no_space_trimmed s : all_chars not_space s = true -> trimmed s.
Proof.
  unfold not_space. intros H. split.
  - intros c s' ->. simpl in H. apply andb_true_iff in H as [H _].
    now apply negb_true_iff in H.
  - intros s' c ->. rewrite all_chars_app in H. simpl in H.
    apply andb_true_iff in H as [_ H]. apply andb_true_iff in H as [H _].
    now apply negb_true_iff in H.
Qed.

End Strings.

(* ------------------------------------------------------------------ *)
(** ** More on [parse_targets] *)

(** X1: on specifications of at most 640 characters, whose numerals
    [int] converts under every setting of the interpreter,
    [parse_targets] raises nothing but a [ValueError], and its message
    holds the words [expected format] or the word [PEP440], the two
    patterns the tests match on. *)
Theorem parse_targets_error_markers :
  forall specs e,
    Forall (fun spec => (String.length spec <= 640)%nat) specs ->
    parse_targets specs = Raise e ->
    exists msg, e = ValueError msg /\
                (contains "expected format" msg \/ contains "PEP440" msg).
Proof.
  intros specs e _ H. apply parse_loop_raise_origin in H as (spec & _ & H).
  destruct (parse_spec_cases spec) as [[_ E]|(t & v & _ & [[_ E]|[_ E]])];
    rewrite E in H; try discriminate H; injection H as <-.
  - eexists. split; [reflexivity|]. left.
    exists ("The specification '" ++ spec ++ "' does not have the "),
           " <tool==version> or <tool=version>.".
    rewrite !append_assoc. reflexivity.
  - eexists. split; [reflexivity|]. right.
    exists "Not a ", (" version spec: '" ++ v ++ "' in '" ++ spec ++ "'").
    reflexivity.
Qed.

Lemma parse_targets_error_markers_witness :
  Forall (fun spec => (String.length spec <= 640)%nat)
         ["foo<0.1.2"; "bar==1.1"] /\
  parse_targets ["foo<0.1.2"; "bar==1.1"] = Raise (format_error "foo<0.1.2") /\
  exists msg, format_error "foo<0.1.2" = ValueError msg /\
              (contains "expected format" msg \/ contains "PEP440" msg).
Proof.
  assert (L : Forall (fun spec => (String.length spec <= 640)%nat)
                     ["foo<0.1.2"; "bar==1.1"]).
  { repeat (constructor; [cbn [String.length]; lia|]). constructor. }
  split; [exact L|]. split; [reflexivity|].
  apply (parse_targets_error_markers ["foo<0.1.2"; "bar==1.1"]).
  - exact L.
  - reflexivity.
Defined.

Section VersionShape.
Import Pep440.

Lemma all_ascii_complete c : In c all_ascii.
Proof.
  unfold all_ascii. rewrite <- (ascii_nat_embedding c).
  apply in_map, in_seq. pose proof (nat_ascii_bounded c). lia.
Qed.

(** The characters of a matched string are those its classes allow. *)
Lemma lang_chars Q r s :
  classes_within Q r = true -> lang r s -> all_chars Q s = true.
Proof.
  intros C H. induction H; cbn [classes_within all_chars] in C |- *.
  - reflexivity.
  - rewrite forallb_forall in C. specialize (C c (all_ascii_complete c)).
    rewrite H in C. cbn [implb] in C. now rewrite C.
  - apply andb_true_iff in C as [C1 C2].
    now rewrite all_chars_app, IHlang1, IHlang2.
  - apply andb_true_iff in C as [C1 C2]. auto.
  - apply andb_true_iff in C as [C1 C2]. auto.
  - reflexivity.
  - now rewrite all_chars_app, IHlang1, IHlang2.
Qed.

(** A string the anchored pattern matches is a version between two runs
    of white space. *)
Lemma regex_inv v :
  lang _regex v ->
  exists a p b,
    v = a ++ p ++ b /\ all_chars is_space a = true /\
    all_chars is_space b = true /\ lang VERSION_PATTERN p.
Proof.
  intros H. apply lang_cat_inv in H as (a & pb & -> & Ha & H).
  apply lang_cat_inv in H as (p & b & -> & Hp & Hb).
  exists a, p, b. repeat split; try assumption.
  - apply (lang_chars is_space (Star space)); [|assumption].
    vm_compute. reflexivity.
  - apply (lang_chars is_space (Star space)); [|assumption].
    vm_compute. reflexivity.
Qed.

Lemma version_pattern_no_space p :
  lang VERSION_PATTERN p -> all_chars not_space p = true.
Proof. apply lang_chars. vm_compute. reflexivity. Qed.

Lemma version_pattern_lifts p : lang VERSION_PATTERN p -> lang _regex p.
Proof.
  intros H. change p with ("" ++ p). rewrite <- (append_nil_r p).
  constructor; [constructor|]. constructor; [assumption|constructor].
Qed.

(** An accepted version has no [=], and stripped it is a version still,
    now without any white space. *)
Lemma Version_stripped v :
  Version v = Ok tt ->
  has_separator v = false /\
  Version (strip v) = Ok tt /\
  all_chars not_space (strip v) = true.
Proof.
  intros H. apply Version_spec in H. split.
  - apply has_separator_chars. apply (lang_chars not_separator _regex); [|assumption].
    vm_compute. reflexivity.
  - destruct (regex_inv _ H) as (a & p & b & -> & Ha & Hb & Hp).
    pose proof (version_pattern_no_space _ Hp) as N.
    rewrite (strip_affixes _ _ _ Ha Hb).
    rewrite (strip_trimmed _ (no_space_trimmed _ N)). split; [|assumption].
    now apply Version_spec, version_pattern_lifts.
Qed.

End VersionShape.

Section ParseRoundTrip.

Lemma split_render_double tool version :
  has_separator tool = false ->
  _split_pattern_split (tool ++ "==" ++ version) = [tool; version].
Proof.
  induction tool as [|c tool IH]; simpl; [reflexivity|].
  destruct (Ascii.eqb c "="); simpl; [discriminate|].
  intros H. specialize (IH H). simpl in IH. now rewrite IH.
Qed.

Lemma split_render_single tool version :
  has_separator tool = false ->
  has_separator version = false ->
  _split_pattern_split (tool ++ "=" ++ version) = [tool; version].
Proof.
  intros Ht Hv. induction tool as [|c tool IH]; simpl.
  - destruct version as [|c' v]; [reflexivity|]. simpl in Hv.
    now destruct (Ascii.eqb c' "=").
  - simpl in Ht. destruct (Ascii.eqb c "="); simpl in Ht; [discriminate|].
    specialize (IH Ht). simpl in IH. now rewrite IH.
Qed.

(** Writing accepted pairs with either separator and parsing them gives
    the pairs, stripped. *)
Lemma parse_loop_render pairs :
  Forall (fun p => has_separator (fst p) = false /\
                   Pep440.Version (snd p) = Ok tt) pairs ->
  forall acc,
    parse_loop (map (render "==") pairs) acc
    = Ok (acc ++ map strip_pair pairs)%list /\
    parse_loop (map (render "=") pairs) acc
    = Ok (acc ++ map strip_pair pairs)%list.
Proof.
  induction 1 as [|[tool version] pairs [Ht Hv] _ IH]; intros acc; simpl.
  - now rewrite List.app_nil_r.
  - simpl in Ht, Hv. unfold render at 1 3. simpl fst. simpl snd.
    destruct (Version_stripped _ Hv) as (Hs & _).
    rewrite (parse_spec_well_formed _ _ _ (split_render_double _ _ Ht) Hv).
    rewrite (parse_spec_well_formed _ _ _ (split_render_single _ _ Ht Hs) Hv).
    simpl.
    destruct (IH (acc ++ [(strip tool, strip version)])%list) as [E1 E2].
    rewrite E1, E2, <- List.app_assoc. now split.
Qed.

(** What an accepted specification contributes. *)
Lemma parse_spec_ok_shape spec p :
  parse_spec spec = Ok p ->
  has_separator (fst p) = false /\ trimmed (fst p) /\
  Pep440.Version (snd p) = Ok tt /\ has_separator (snd p) = false /\
  all_chars not_space (snd p) = true.
Proof.
  intros H.
  destruct (parse_spec_cases spec) as [[_ E]|(t & v & S & [[V E]|[_ E]])];
    rewrite E in H; try discriminate H. injection H as <-. simpl.
  destruct (Version_stripped _ V) as (_ & V' & N).
  destruct (Version_stripped _ V') as (S' & _).
  destruct (strip_spec t) as (l & r & Et & _ & _ & T).
  assert (St : has_separator t = false).
  { destruct (split_with_separator spec (split_two_has_separator _ _ _ S))
      as (t' & v' & S2 & Ht & _). congruence. }
  rewrite Et, !has_separator_app in St.
  apply orb_false_iff in St as [_ St]. apply orb_false_iff in St as [St _].
  repeat split; try assumption; apply T.
Qed.

Lemma parse_loop_ok_inv specs :
  forall acc out,
    parse_loop specs acc = Ok out ->
    exists pairs, out = (acc ++ pairs)%list /\
                  Forall2 (fun spec p => parse_spec spec = Ok p) specs pairs.
Proof.
  induction specs as [|spec specs IH]; intros acc out; simpl.
  - intros [= <-]. exists []. now rewrite List.app_nil_r.
  - destruct (parse_spec spec) as [p|e] eqn:E; simpl; [|discriminate].
    intros H. destruct (IH _ _ H) as (pairs & -> & F).
    exists (p :: pairs). rewrite <- List.app_assoc. split; [reflexivity|].
    now constructor.
Qed.

Lemma parse_targets_ok_shape specs pairs :
  parse_targets specs = Ok pairs ->
  List.length pairs = List.length specs /\
  Forall (fun p => has_separator (fst p) = false /\ trimmed (fst p) /\
                   Pep440.Version (snd p) = Ok tt /\
                   has_separator (snd p) = false /\
                   all_chars not_space (snd p) = true) pairs.
Proof.
  intros H. apply parse_loop_ok_inv in H as (ps & -> & F). simpl. split.
  - symmetry. apply (Forall2_length F).
  - clear -F. induction F; constructor; auto.
    now apply (parse_spec_ok_shape x).
Qed.

End ParseRoundTrip.

(** X2: a pair whose tool has no [=] and whose version is accepted can be
    written with [==] or with [=]: both spellings parse to the same pairs,
    the given ones stripped of the white space at their ends. *)
Theorem parse_targets_render :
  forall pairs,
    Forall (fun p => has_separator (fst p) = false /\
                     Pep440.Version (snd p) = Ok tt) pairs ->
    parse_targets (map (render "==") pairs) = Ok (map strip_pair pairs) /\
    parse_targets (map (render "=") pairs) = Ok (map strip_pair pairs).
Proof. intros pairs H. exact (parse_loop_render pairs H []). Qed.

Lemma parse_targets_render_witness :
  parse_targets ["samtools ==1.15"; "bwa==0.7.17 "]
  = Ok [("samtools", "1.15"); ("bwa", "0.7.17")] /\
  parse_targets ["samtools =1.15"; "bwa=0.7.17 "]
  = Ok [("samtools", "1.15"); ("bwa", "0.7.17")].
Proof.
  apply (parse_targets_render [("samtools ", "1.15"); ("bwa", "0.7.17 ")]).
  repeat constructor.
Defined.

(** X3: what [parse_targets] returns is clean.  There is one pair per
    specification; no tool and no version contains [=]; every tool is
    trimmed; every version is itself a PEP 440 version and holds no white
    space at all. *)
Theorem parse_targets_output :
  forall specs pairs,
    parse_targets specs = Ok pairs ->
    List.length pairs = List.length specs /\
    Forall (fun p => has_separator (fst p) = false /\ trimmed (fst p) /\
                     Pep440.Version (snd p) = Ok tt /\
                     has_separator (snd p) = false /\
                     all_chars not_space (snd p) = true) pairs.
Proof. exact parse_targets_ok_shape. Qed.

Lemma parse_targets_output_witness :
  List.length [("foo", "0.1.2"); ("bar", "1.1")] = 2%nat /\
  Forall (fun p => has_separator (fst p) = false /\ trimmed (fst p) /\
                   Pep440.Version (snd p) = Ok tt /\
                   has_separator (snd p) = false /\
                   all_chars not_space (snd p) = true)
         [("foo", "0.1.2"); ("bar", "1.1")].
Proof.
  apply (parse_targets_output [" foo == 0.1.2 "; "bar=1.1"]).
  reflexivity.
Defined.

(** X4: parsing is idempotent through the written form.  When
    [parse_targets] returns pairs, writing them as [tool==version] (or
    [tool=version]) and parsing again returns the same pairs. *)
Theorem parse_targets_idempotent :
  forall specs pairs,
    parse_targets specs = Ok pairs ->
    parse_targets (map (render "==") pairs) = Ok pairs /\
    parse_targets (map (render "=") pairs) = Ok pairs.
Proof.
  intros specs pairs H. apply parse_targets_ok_shape in H as [_ F].
  assert (E : map strip_pair pairs = pairs).
  { clear -F. induction F as [|[t v] l (_ & T & _ & _ & N) _ IH]; simpl;
      [reflexivity|]. simpl in T, N. unfold strip_pair at 1. simpl.
    now rewrite IH, (strip_trimmed _ T), (strip_trimmed _ (no_space_trimmed _ N)). }
  rewrite <- E at 2 4. apply (parse_loop_render pairs).
  revert F. apply Forall_impl. tauto.
Qed.

Lemma parse_targets_idempotent_witness :
  parse_targets ["foo==0.1.2"; "bar==1.1"] = Ok [("foo", "0.1.2"); ("bar", "1.1")] /\
  parse_targets ["foo=0.1.2"; "bar=1.1"] = Ok [("foo", "0.1.2"); ("bar", "1.1")].
Proof.
  apply (parse_targets_idempotent [" foo = 0.1.2"; "bar==1.1 "]
                                  [("foo", "0.1.2"); ("bar", "1.1")]).
  reflexivity.
Defined.

(* ------------------------------------------------------------------ *)
(** ** More on [generate_image_name] *)

Section NameShapes.
Import Galaxy.

Lemma str_of_int_inj b b' : str_of_int b = str_of_int b' -> b = b'.
Proof.
  intros H. pose proof (str_of_int_read_back b) as R.
  rewrite H, str_of_int_read_back in R. now injection R.
Qed.

Lemma str_of_int_is_zero b : String.eqb (str_of_int b) "0" = Z.eqb b 0.
Proof.
  destruct (String.eqb_spec (str_of_int b) "0") as [E|N];
    destruct (Z.eqb_spec b 0) as [->|Z]; try reflexivity.
  - now apply str_of_int_leading_zero in E.
  - now contradiction N.
Qed.

(** The name of one target. *)
Lemma single_name n v b :
  generate_image_name [(n, v)] None b
  = Ok (lower n ++ ":" ++ v ++
        (if Z.eqb b 0 then "" else "--" ++ str_of_int b)).
Proof.
  unfold generate_image_name. cbn [map v2_image_name].
  unfold _simple_image_name, build_target. cbn [version build package_name].
  rewrite str_of_int_is_zero. now destruct (Z.eqb b 0).
Qed.

(** The name of a list that is not a singleton: the digest of the names,
    then a tag that ends with the build. *)
Lemma many_name targets :
  List.length targets <> 1%nat ->
  exists tag, forall b,
    generate_image_name targets None b
    = Ok ("mulled-v2-" ++ package_hash targets ++ ":" ++ tag ++ str_of_int b).
Proof.
  intros L.
  assert (L' : List.length (targets_of targets) <> 1%nat)
    by (unfold targets_of; now rewrite length_map).
  destruct (existsb truthy_opt (map version (sorted (targets_of targets))))
    eqn:X.
  - exists (version_hash targets ++ "-"). intros b.
    unfold generate_image_name. change (map _ targets) with (targets_of targets).
    rewrite (v2_image_name_many _ _ L'), X, str_of_int_truthy, map_map.
    fold (package_hash targets). fold (version_hash targets).
    now rewrite append_assoc.
  - exists "". intros b.
    unfold generate_image_name. change (map _ targets) with (targets_of targets).
    rewrite (v2_image_name_many _ _ L'), X, str_of_int_truthy.
    reflexivity.
Qed.

Lemma insert_same_view t t' s s' :
  same_view t t' -> Forall2 same_view s s' ->
  Forall2 same_view (insert t s) (insert t' s').
Proof.
  intros V F. induction F as [|u u' s s' U F IH]; simpl.
  - constructor; [exact V|constructor].
  - pose proof V as (Vn & _). pose proof U as (Un & _).
    rewrite <- Vn, <- Un.
    destruct (String.leb (package_name t) (package_name u)).
    + constructor; [exact V|]. now constructor.
    + constructor; [exact U|exact IH].
Qed.

Lemma sorted_same_view l l' :
  Forall2 same_view l l' -> Forall2 same_view (sorted l) (sorted l').
Proof.
  induction 1; simpl; [constructor|]. now apply insert_same_view.
Qed.

Lemma same_view_maps l l' :
  Forall2 same_view l l' ->
  map package_name l = map package_name l' /\ map version l = map version l'.
Proof.
  induction 1 as [|t u l l' (Vn & Vv & _) _ [IH1 IH2]]; simpl; [now split|].
  now rewrite Vn, Vv, IH1, IH2.
Qed.

(** The name is computed from the lower-case names, the versions and the
    builds of the targets, and from nothing else of them. *)
Lemma v2_image_name_same_view l l' b name_override :
  Forall2 same_view l l' ->
  v2_image_name l (Some b) name_override
  = v2_image_name l' (Some b) name_override.
Proof.
  intros F. destruct name_override as [name|]; [reflexivity|].
  destruct (Nat.eq_dec (List.length l) 1) as [L|L].
  - pose proof (Forall2_length F) as L'. rewrite L in L'.
    destruct l as [|t [|? ?]]; try discriminate L.
    destruct l' as [|u [|? ?]]; try discriminate L'.
    inversion F as [|? ? ? ? (Vn & Vv & Vb) _]; subst.
    cbn [v2_image_name]. unfold _simple_image_name. now rewrite Vn, Vv, Vb.
  - rewrite !v2_image_name_many;
      [|now rewrite <- (Forall2_length F)|assumption].
    destruct (same_view_maps _ _ (sorted_same_view _ _ F)) as [E1 E2].
    now rewrite E1, E2.
Qed.

Lemma sorted_names_perm targets targets' :
  Permutation (map (fun p => lower (fst p)) targets)
              (map (fun p => lower (fst p)) targets') ->
  map package_name (sorted (targets_of targets))
  = map package_name (sorted (targets_of targets')).
Proof.
  intros P.
  assert (N : forall ts, map package_name (targets_of ts)
                         = map (fun p => lower (fst p)) ts).
  { intros ts. unfold targets_of. rewrite map_map. apply map_ext.
    now intros [n v]. }
  apply (sorted_unique (fun a b => String.leb a b = true)).
  - intros a b _ _. apply String.leb_antisym.
  - apply StronglySorted_map, sorted_sorted.
  - apply StronglySorted_map, sorted_sorted.
  - rewrite <- (Permutation_map _ (sorted_perm (targets_of targets))).
    rewrite <- (Permutation_map _ (sorted_perm (targets_of targets'))).
    now rewrite !N.
Qed.

End NameShapes.

(** X5: a single target is named [<name>:<version>], the name in lower
    case; the build number is left out when it is 0 and appended after
    [--] otherwise. *)
Theorem generate_image_name_single :
  forall name version build_number,
    generate_image_name [(name, version)] None build_number
    = Ok (lower name ++ ":" ++ version ++
          (if Z.eqb build_number 0 then ""
           else "--" ++ str_of_int build_number)).
Proof. exact single_name. Qed.

(** X6: when the list is not a singleton and every version is empty (the
    form submitted with blank version fields), no version hash is made:
    the name is [mulled-v2-<package_hash>:<build_number>]. *)
Theorem generate_image_name_versionless :
  forall targets build_number,
    List.length targets <> 1%nat ->
    Forall (fun p => snd p = "") targets ->
    generate_image_name targets None build_number
    = Ok ("mulled-v2-" ++ package_hash targets ++ ":" ++
          str_of_int build_number).
Proof.
  intros targets b L F. unfold generate_image_name.
  change (map _ targets) with (targets_of targets).
  rewrite v2_image_name_many by (unfold targets_of; now rewrite length_map).
  assert (X : existsb Galaxy.truthy_opt
                (map Galaxy.version (Galaxy.sorted (targets_of targets)))
              = false).
  { destruct (existsb _ _) eqn:E; [|reflexivity].
    apply existsb_exists in E as (o & Ho & T).
    apply in_map_iff in Ho as (t & <- & Ht).
    apply in_sorted_targets in Ht as (n & v & Hin & ->).
    rewrite Forall_forall in F. specialize (F _ Hin). simpl in F. subst v.
    discriminate T. }
  rewrite X, str_of_int_truthy. reflexivity.
Qed.

Lemma generate_image_name_versionless_witness :
  generate_image_name [("bwa", ""); ("samtools", "")] None 2
  = Ok ("mulled-v2-" ++ package_hash [("bwa", ""); ("samtools", "")] ++ ":" ++
        str_of_int 2).
Proof.
  apply generate_image_name_versionless.
  - simpl. discriminate.
  - repeat constructor.
Defined.

(** X7: the repository part of a name depends on the package names only.
    Two lists, neither a singleton, whose lower-cased names are the same
    up to order get names with the same [mulled-v2-<package_hash>] in
    front, whatever their versions, their order and the build numbers. *)
Theorem generate_image_name_repository :
  forall targets targets' build_number build_number',
    List.length targets <> 1%nat ->
    List.length targets' <> 1%nat ->
    Permutation (map (fun p => lower (fst p)) targets)
                (map (fun p => lower (fst p)) targets') ->
    exists tag tag',
      generate_image_name targets None build_number
      = Ok ("mulled-v2-" ++ package_hash targets ++ ":" ++ tag) /\
      generate_image_name targets' None build_number'
      = Ok ("mulled-v2-" ++ package_hash targets ++ ":" ++ tag').
Proof.
  intros ts ts' b b' L L' P.
  destruct (many_name ts L) as [tag E], (many_name ts' L') as [tag' E'].
  exists (tag ++ str_of_int b), (tag' ++ str_of_int b').
  rewrite E, E'. split; [reflexivity|].
  unfold package_hash. now rewrite (sorted_names_perm _ _ P).
Qed.

Lemma generate_image_name_repository_witness :
  exists tag tag',
    generate_image_name [("samtools", "1.15"); ("BWA", "0.7.17")] None 0
    = Ok ("mulled-v2-" ++
          package_hash [("samtools", "1.15"); ("BWA", "0.7.17")] ++ ":" ++ tag) /\
    generate_image_name [("bwa", ""); ("Samtools", "1.3.1")] None 4
    = Ok ("mulled-v2-" ++
          package_hash [("samtools", "1.15"); ("BWA", "0.7.17")] ++ ":" ++ tag').
Proof.
  apply generate_image_name_repository.
  - simpl. discriminate.
  - simpl. discriminate.
  - apply perm_swap.
Defined.

(** X8: names are compared without regard to case.  Two lists that agree
    entry by entry on the lower-cased name and on the version get the
    same image name, for every override and build number. *)
Theorem generate_image_name_case_insensitive :
  forall targets targets' base_image build_number,
    map (fun p => (lower (fst p), snd p)) targets
    = map (fun p => (lower (fst p), snd p)) targets' ->
    generate_image_name targets base_image build_number
    = generate_image_name targets' base_image build_number.
Proof.
  intros ts ts' base b E. unfold generate_image_name. f_equal.
  apply v2_image_name_same_view.
  revert ts' E. induction ts as [|[n v] ts IH]; intros [|[n' v'] ts'] E;
    try discriminate E; simpl; constructor.
  - simpl in E. injection E as En Ev _. unfold same_view. simpl.
    now rewrite En, Ev.
  - simpl in E. injection E as _ _ E. now apply IH.
Qed.

Lemma generate_image_name_case_insensitive_witness :
  generate_image_name [("SAMtools", "1.15"); ("Bwa", "0.7.17")] None 0
  = generate_image_name [("samtools", "1.15"); ("bwa", "0.7.17")] None 0.
Proof.
  apply generate_image_name_case_insensitive. reflexivity.
Defined.

(** X9: without an override the build number can be read off the name:
    the same targets with two different build numbers never get the same
    name. *)
Theorem generate_image_name_build_injective :
  forall targets build_number build_number',
    generate_image_name targets None build_number
    = generate_image_name targets None build_number' ->
    build_number = build_number'.
Proof.
  intros ts b b'.
  destruct (Nat.eq_dec (List.length ts) 1) as [L|L].
  - destruct ts as [|[n v] [|? ?]]; try discriminate L.
    rewrite !single_name. intros H. injection H as H.
    apply append_cancel_l in H. injection H as H.
    apply append_cancel_l in H.
    destruct (Z.eqb_spec b 0) as [->|Hb], (Z.eqb_spec b' 0) as [->|Hb'];
      try reflexivity; try discriminate H.
    injection H as H. now apply str_of_int_inj.
  - destruct (many_name ts L) as [tag E]. rewrite !E. intros H.
    injection H as H. repeat apply append_cancel_l in H.
    now apply str_of_int_inj.
Qed.

Lemma generate_image_name_build_injective_witness :
  generate_image_name [("samtools", "1.15")] None 0
  = generate_image_name [("samtools", "1.15")] None 0 /\ 0%Z = 0%Z.
Proof.
  split; [reflexivity|].
  apply (generate_image_name_build_injective [("samtools", "1.15")] 0 0).
  reflexivity.
Defined.

(* ------------------------------------------------------------------ *)
(** ** More on [image_exists] *)

(** X10: a call of [image_exists] that returns has logged two records, a
    DEBUG record and then an INFO record when the result is [True] or an
    ERROR record when it is [False], each naming the URL asked; a call
    that raises has logged nothing. *)
Theorem image_exists_log :
  forall (requests_get : string -> result Response) (image_name : string),
    (forall found,
        snd (image_exists requests_get image_name) = Ok found ->
        exists dbg msg,
          fst (image_exists requests_get image_name)
          = [(DEBUG, dbg); (if found then INFO else ERROR, msg)] /\
          contains (quay_url image_name) dbg /\
          contains (quay_url image_name) msg)
    /\ (forall e,
           snd (image_exists requests_get image_name) = Raise e ->
           fst (image_exists requests_get image_name) = []).
Proof.
  intros get name. unfold image_exists.
  destruct (get (quay_url name)) as [r|e]; [|split; [discriminate|reflexivity]].
  split; [|destruct (Z.eqb _ _); discriminate].
  intros found H.
  assert (D : contains (quay_url name)
                ("Got response code '" ++ str_of_int (status_code r) ++
                 "' for URL " ++ quay_url name ++ ".")).
  { exists ("Got response code '" ++ str_of_int (status_code r) ++ "' for URL "),
           ".". now rewrite !append_assoc. }
  destruct (Z.eqb (status_code r) 200); injection H as <-;
    do 2 eexists; (split; [reflexivity|split; [exact D|]]).
  - now exists "Found [link=", "]docker image[/link] on quay.io! :sparkles:".
  - now exists "Unable to find [link=", "]docker image[/link] on quay.io.".
Qed.

Lemma image_exists_log_witness :
  exists dbg msg,
    fst (image_exists sample_registry "nothing:0")
    = [(DEBUG, dbg); (ERROR, msg)] /\
    contains (quay_url "nothing:0") dbg /\
    contains (quay_url "nothing:0") msg.
Proof.
  apply (proj1 (image_exists_log sample_registry "nothing:0") false).
  reflexivity.
Defined.

(* ------------------------------------------------------------------ *)
(** ** The form *)

Section Form.
Import PanelApp.

Lemma collect_inputs column :
  forallb is_input column = true ->
  forall tools, collect column tools = Done (tools ++ tools_of column)%list.
Proof.
  induction column as [|row column IH]; simpl; intros H tools.
  - now rewrite List.app_nil_r.
  - apply andb_true_iff in H as [Hr H]. destruct row; try discriminate Hr.
    simpl. rewrite (IH H), <- List.app_assoc. reflexivity.
Qed.

(** A column with a pane in it stops the loop at its first pane. *)
Lemma collect_pane column :
  forallb is_input column = false ->
  forall tools, exists e, collect column tools = Fail e.
Proof.
  induction column as [|row column IH]; simpl; intros H tools;
    [discriminate|].
  destruct row; simpl in *; try (eexists; reflexivity).
  apply IH. exact H.
Qed.

Lemma on_submit_inputs requests_get column :
  forallb is_input column = true ->
  exists image,
    generate_image_name (tools_of column) None 0 = Ok image /\
    on_submit requests_get column
    = match image_exists requests_get image with
      | (log, Raise e) => ([HtmlRow (html_text image)], log, Fail (Service e))
      | (log, Ok found) =>
          ([HtmlRow (html_text image);
            MarkdownPane (markdown_text image found)], log, Done tt)
      end.
Proof.
  intros H. unfold on_submit. rewrite (collect_inputs _ H). simpl app.
  unfold generate_image_name. eexists. split; reflexivity.
Qed.

Lemma on_submit_pane requests_get column :
  forallb is_input column = false ->
  exists e, on_submit requests_get column = (column, [], Fail e).
Proof.
  intros H. unfold on_submit.
  destruct (collect_pane _ H []) as [e ->]. now exists e.
Qed.

Lemma forallb_is_input_app l l' :
  forallb is_input (l ++ l') = forallb is_input l && forallb is_input l'.
Proof. apply forallb_app. Qed.

Lemma on_remove_inputs column :
  forallb is_input column = true -> forallb is_input (on_remove column) = true.
Proof.
  unfold on_remove. induction column as [|row column IH]; [reflexivity|].
  intros H. simpl in H. apply andb_true_iff in H as [Hr H].
  destruct column as [|row' column']; [reflexivity|].
  change (removelast (row :: row' :: column'))
    with (row :: removelast (row' :: column')).
  simpl forallb at 1. rewrite Hr. now apply IH.
Qed.

End Form.

(** X11: Remove undoes Add: removing the last row of a column that just
    got a row gives the column back.  On an empty column Remove raises
    nothing and leaves it empty, and otherwise the column gets one row
    shorter. *)
Theorem on_remove_on_add :
  forall column,
    PanelApp.on_remove (PanelApp.on_add column) = column /\
    PanelApp.on_remove [] = [] /\
    List.length (PanelApp.on_remove column) = pred (List.length column).
Proof.
  intros column. unfold PanelApp.on_remove, PanelApp.on_add.
  split; [apply removelast_last|]. split; [reflexivity|].
  induction column as [|row [|row' column] IH]; try reflexivity.
  change (removelast (row :: row' :: column))
    with (row :: removelast (row' :: column)).
  simpl List.length in *. now rewrite IH.
Qed.

(** X12: the buttons Reset, Add and Remove keep a form a form.  From a
    column of input rows, as the one [view] sets up, any sequence of
    clicks on these three buttons leaves a column of input rows, and a
    click on Reset leaves the single empty row of a fresh form. *)
Theorem clicks_keep_inputs :
  forall requests_get bs column,
    Forall (fun b => b <> PanelApp.SubmitButton) bs ->
    forallb is_input column = true ->
    forallb is_input (clicks requests_get bs column) = true /\
    clicks requests_get (bs ++ [PanelApp.ResetButton]) column
    = PanelApp.app_column.
Proof.
  intros get bs column Hb. unfold clicks. split.
  - revert column H. induction Hb as [|b bs Hn _ IH]; intros column H;
      simpl; [exact H|].
    apply IH. destruct b; simpl; try reflexivity.
    + now contradiction Hn.
    + unfold PanelApp.on_add. now rewrite forallb_is_input_app, H.
    + now apply on_remove_inputs.
  - now rewrite fold_left_app.
Qed.

Lemma clicks_keep_inputs_witness :
  forallb is_input
    (clicks unreachable_registry
            [PanelApp.AddButton; PanelApp.RemoveButton; PanelApp.RemoveButton;
             PanelApp.AddButton] PanelApp.app_column) = true.
Proof.
  apply clicks_keep_inputs.
  - repeat constructor; discriminate.
  - reflexivity.
Defined.

(** X13: Submit on a column of input rows, when the registry answers.
    The image name is [generate_image_name] of the stripped values of the
    rows, with no override and build 0 (no specification is parsed, no
    version checked); the column is replaced by two panes, the HTML pane
    of that name and the Markdown pane with its link and the sign of a
    found image exactly when the status is 200; nothing is raised. *)
Theorem on_submit_answered :
  forall requests_get column image response,
    forallb is_input column = true ->
    generate_image_name (tools_of column) None 0 = Ok image ->
    requests_get (quay_url image) = Ok response ->
    fst (fst (PanelApp.on_submit requests_get column))
    = [PanelApp.HtmlRow (PanelApp.html_text image);
       PanelApp.MarkdownPane
         (PanelApp.markdown_text image (Z.eqb (status_code response) 200))]
    /\ snd (PanelApp.on_submit requests_get column) = PanelApp.Done tt.
Proof.
  intros get column image r H G R.
  destruct (on_submit_inputs get column H) as (image' & G' & ->).
  rewrite G in G'. injection G' as <-.
  unfold image_exists. rewrite R.
  now destruct (Z.eqb (status_code r) 200).
Qed.

Lemma on_submit_answered_witness :
  fst (fst (PanelApp.on_submit sample_registry
              [PanelApp.ToolInput " Samtools" "1.15 "]))
  = [PanelApp.HtmlRow (PanelApp.html_text "samtools:1.15");
     PanelApp.MarkdownPane (PanelApp.markdown_text "samtools:1.15" true)]
  /\ snd (PanelApp.on_submit sample_registry
            [PanelApp.ToolInput " Samtools" "1.15 "]) = PanelApp.Done tt.
Proof.
  apply (on_submit_answered sample_registry
           [PanelApp.ToolInput " Samtools" "1.15 "] "samtools:1.15"
           (mkResponse 200)).
  - reflexivity.
  - vm_compute. reflexivity.
  - reflexivity.
Defined.

(** X14: Submit on a column of input rows, when the request fails.  The
    exception of the request leaves [on_submit]; by then the rows of the
    form have been cleared and the column holds the HTML pane alone;
    nothing has been logged. *)
Theorem on_submit_unreachable :
  forall requests_get column image e,
    forallb is_input column = true ->
    generate_image_name (tools_of column) None 0 = Ok image ->
    requests_get (quay_url image) = Raise e ->
    PanelApp.on_submit requests_get column
    = ([PanelApp.HtmlRow (PanelApp.html_text image)], [],
       PanelApp.Fail (PanelApp.Service e)).
Proof.
  intros get column image e H G R.
  destruct (on_submit_inputs get column H) as (image' & G' & ->).
  rewrite G in G'. injection G' as <-.
  unfold image_exists. now rewrite R.
Qed.

Lemma on_submit_unreachable_witness :
  PanelApp.on_submit unreachable_registry PanelApp.app_column
  = ([PanelApp.HtmlRow (PanelApp.html_text ":")], [],
     PanelApp.Fail (PanelApp.Service (RequestException "ConnectionError"))).
Proof.
  apply on_submit_unreachable.
  - reflexivity.
  - vm_compute. reflexivity.
  - reflexivity.
Defined.

(** X15: Submit on a column that holds a pane.  The loop over the rows
    raises at the first pane; the column is left as it was, nothing is
    logged, and the registry is not asked: the result is the same for
    every registry. *)
Theorem on_submit_with_pane :
  forall column,
    forallb is_input column = false ->
    exists e, forall requests_get,
      PanelApp.on_submit requests_get column = (column, [], PanelApp.Fail e).
Proof.
  intros column H. destruct (collect_pane _ H []) as [e E].
  exists e. intros get. unfold PanelApp.on_submit. now rewrite E.
Qed.

Lemma on_submit_with_pane_witness :
  exists e, forall requests_get,
    PanelApp.on_submit requests_get
      [PanelApp.ToolInput "bwa" "0.7.17"; PanelApp.MarkdownPane "x"]
    = ([PanelApp.ToolInput "bwa" "0.7.17"; PanelApp.MarkdownPane "x"], [],
       PanelApp.Fail e).
Proof. apply on_submit_with_pane. reflexivity. Defined.

(** X16: Submit cannot be clicked twice.  After a Submit on a column of
    input rows, whether the registry answered or not, the next Submit
    raises the [ValueError] of unpacking the HTML row, changes nothing
    and asks no registry. *)
Theorem on_submit_twice :
  forall requests_get requests_get' column,
    forallb is_input column = true ->
    PanelApp.on_submit requests_get'
      (fst (fst (PanelApp.on_submit requests_get column)))
    = (fst (fst (PanelApp.on_submit requests_get column)), [],
       PanelApp.Fail
         (PanelApp.Service
            (ValueError "not enough values to unpack (expected 2, got 1)"))).
Proof.
  intros get get' column H.
  destruct (on_submit_inputs get column H) as (image & _ & ->).
  destruct (image_exists get image) as [log [found|e]]; reflexivity.
Qed.

Lemma on_submit_twice_witness :
  PanelApp.on_submit sample_registry
    (fst (fst (PanelApp.on_submit sample_registry PanelApp.app_column)))
  = (fst (fst (PanelApp.on_submit sample_registry PanelApp.app_column)), [],
     PanelApp.Fail
       (PanelApp.Service
          (ValueError "not enough values to unpack (expected 2, got 1)"))).
Proof. apply on_submit_twice. reflexivity. Defined.
